(** * werkzeug.debug.repr: the HTML debug representation engine

    A shallow embedding of [src/werkzeug/debug/repr.py] and the proofs of
    its properties.

    - Python objects live in a heap and are referred to by address, so
      that the identity test [item is obj] of [DebugReprGenerator.repr]
      is address equality and a container can contain itself.  Rendering
      never changes the heap.
    - Of an object the model keeps what the engine observes: its class,
      the outcome of [builtins.repr], of iterating it, of [dir] and
      [getattr], and its [object.__repr__].  Each of these may raise.
    - An exception records whether it is an instance of [Exception],
      which is what [except Exception] looks at, and the summary that
      [format_exception_only] makes of it.
    - The generator's [_stack] is threaded through every call.  A call
      returns a value or raises; [None] means that the budget of nested
      calls of the model ran out, and [repr_returns] bounds the budget
      that is needed by the size of the heap.
    - [html.escape], [str.strip], slices and the [%] operator are
      modelled on texts of code points 0..255;
      [codecs.decode(_, "unicode-escape", "ignore")] is a parameter. *)

From Stdlib Require Import String Ascii List ZArith Lia Bool Arith.
Import ListNotations.
Open Scope string_scope.

(* ------------------------------------------------------------------ *)
(** ** Text *)

(** Python [str] values are modelled as strings of code points 0..255. *)

Definition dquote : ascii := Eval cbv in ascii_of_nat 34.
Definition nl : string := Eval cbv in String (ascii_of_nat 10) "".

(** [<span class="cls">], the opening tag used by every marker. *)
Definition span (cls : string) : string :=
  "<span class=" ++ String dquote cls ++ String dquote ">".

Definition SPAN_EXTENDED : string := Eval cbv in span "extended".

(** [html.escape(s)] with its default [quote=True]. *)
Definition escape_char (c : ascii) : string :=
  if (c =? "&")%char then "&amp;"
  else if (c =? "<")%char then "&lt;"
  else if (c =? ">")%char then "&gt;"
  else if (c =? dquote)%char then "&quot;"
  else if (c =? "'")%char then "&#x27;"
  else String c "".

Fixpoint escape (s : string) : string :=
  match s with
  | EmptyString => ""
  | String c s' => escape_char c ++ escape s'
  end.

(** The characters an HTML parser treats as markup. *)
Definition markup_char (c : ascii) : bool :=
  (c =? "<")%char || (c =? ">")%char || (c =? dquote)%char || (c =? "'")%char.

Fixpoint has_markup (s : string) : bool :=
  match s with
  | EmptyString => false
  | String c s' => markup_char c || has_markup s'
  end.

(** [str.isspace] on code points below 256. *)
Definition isspace (c : ascii) : bool :=
  let n := nat_of_ascii c in
  ((9 <=? n)%nat && (n <=? 13)%nat) || ((28 <=? n)%nat && (n <=? 32)%nat)
  || (n =? 133)%nat || (n =? 160)%nat.

Fixpoint lstrip (s : string) : string :=
  match s with
  | EmptyString => ""
  | String c s' => if isspace c then lstrip s' else s
  end.

Fixpoint rstrip (s : string) : string :=
  match s with
  | EmptyString => ""
  | String c s' =>
      match rstrip s' with
      | EmptyString => if isspace c then "" else String c ""
      | t => String c t
      end
  end.

(** [s.strip()] *)
Definition strip (s : string) : string := rstrip (lstrip s).

(** Python slice bounds: a negative bound counts from the end, and every
    bound is clipped to the string. *)
Definition slice_bound (len i : Z) : Z :=
  if (i <? 0)%Z then Z.max 0 (len + i) else Z.min i len.

(** [s[i:j]] *)
Definition slice (s : string) (i j : Z) : string :=
  let len := Z.of_nat (String.length s) in
  let lo := slice_bound len i in
  let hi := slice_bound len j in
  substring (Z.to_nat lo) (Z.to_nat (hi - lo)) s.

(** [s[:i]] and [s[i:]] *)
Definition slice_to (s : string) (i : Z) : string := slice s 0 i.
Definition slice_from (s : string) (i : Z) : string :=
  slice s i (Z.of_nat (String.length s)).

(** [l.append(x)] and [l.extend(xs)] on a Python list *)
Definition snoc {A : Type} (l : list A) (x : A) : list A := (l ++ [x])%list.
Definition extend {A : Type} (l xs : list A) : list A := (l ++ xs)%list.

(** [sep.join(parts)] *)
Definition join (sep : string) (parts : list string) : string :=
  String.concat sep parts.

(** The [%(name)s] conversions of [template % env]: the template is
    scanned once, substituted values are not scanned again.  [None]
    stands for the [KeyError] or [ValueError] that Python raises on an
    unknown name or another conversion. *)
Inductive fmt_state : Type :=
| Plain
| Percent
| InName (acc : string)
| Conv (name : string).

Fixpoint env_get (env : list (string * string)) (name : string) : option string :=
  match env with
  | [] => None
  | (k, v) :: env' => if (k =? name)%string then Some v else env_get env' name
  end.

Fixpoint percent_from (st : fmt_state) (template : string)
    (env : list (string * string)) : option string :=
  match template with
  | EmptyString => match st with Plain => Some "" | _ => None end
  | String c t =>
      match st with
      | Plain =>
          if (c =? "%")%char then percent_from Percent t env
          else option_map (String c) (percent_from Plain t env)
      | Percent =>
          if (c =? "(")%char then percent_from (InName "") t env
          else if (c =? "%")%char then option_map (String c) (percent_from Plain t env)
          else None
      | InName acc =>
          if (c =? ")")%char then percent_from (Conv acc) t env
          else percent_from (InName (acc ++ String c "")) t env
      | Conv name =>
          if (c =? "s")%char then
            match env_get env name, percent_from Plain t env with
            | Some v, Some rest => Some (v ++ rest)
            | _, _ => None
            end
          else None
      end
  end.

Definition percent_format (template : string) (env : list (string * string))
    : option string :=
  percent_from Plain template env.

(* ------------------------------------------------------------------ *)
(** ** Objects *)

Definition addr := nat.

(** The built-in types that [dispatch_repr] tests with [isinstance];
    [py_object] stands for every other class. *)
Inductive builtin : Type :=
| py_int | py_float | py_complex
| py_str | py_bytes
| py_Pattern
| py_list | py_tuple | py_set | py_frozenset | py_dict | py_deque
| py_object.

Definition builtin_code (b : builtin) : nat :=
  match b with
  | py_int => 0 | py_float => 1 | py_complex => 2
  | py_str => 3 | py_bytes => 4
  | py_Pattern => 5
  | py_list => 6 | py_tuple => 7 | py_set => 8 | py_frozenset => 9
  | py_dict => 10 | py_deque => 11
  | py_object => 12
  end.

Definition builtin_eqb (a b : builtin) : bool :=
  (builtin_code a =? builtin_code b)%nat.

(** A class: the built-in it is ([ty_exact]) or derives from, with its
    [__name__] and [__module__]. *)
Record pytype : Type := {
  ty_base : builtin;
  ty_exact : bool;
  ty_name : string;
  ty_module : string
}.

(** A raised exception, as far as the engine looks at it: whether it is
    an instance of [Exception] (and not only of [BaseException]), and
    what [format_exception_only] makes of it, [None] when that call
    itself fails with an [Exception]. *)
Record exn : Type := {
  exc_is_Exception : bool;
  exc_format : option string
}.

Inductive result (A : Type) : Type :=
| Ret (a : A)
| Raise (e : exn).
Arguments Ret {A} a.
Arguments Raise {A} e.

(** What a [for] loop over an object sees: the elements it is handed,
    after which the iterator is exhausted or raises. *)
Record iteration (A : Type) : Type := {
  yielded : list A;
  stop : option exn
}.
Arguments yielded {A} i.
Arguments stop {A} i.

(** What the engine can observe of an object.  A field is read only for
    the kinds of object it makes sense for.

    [ob_class] is the reading of [obj.__class__], which [isinstance]
    does when [type(obj)] is not the class it is asked about: [None]
    when the reading gives [type(obj)], [Some e] when it raises [e], as
    the property of a proxy without a target does ([isinstance] takes
    an [AttributeError] for the answer no, so [e] is another error).

    [ob_escape] is what [html.escape(obj)] gives as a row name, by
    calling [obj.replace]: the escaped text, or the error of the call,
    an [AttributeError] for an object without [replace], a [TypeError]
    for a [bytes] object, and whatever a [replace] of the object's own
    class does.  It is not read for an exact [str], whose [replace] is
    the built-in one.

    [ob_dir] is the list that [dir(obj)] returns, or the error it
    raises; each name, an object itself, comes with what
    [getattr(obj, name)] returns or raises, which for a name that is no
    [str] is a [TypeError]. *)
Record pyobj : Type := {
  ob_type : pytype;                       (* type(obj) *)
  ob_class : option exn;                  (* obj.__class__ *)
  ob_repr : result string;                (* builtins.repr(obj) *)
  ob_object_repr : string;                (* object.__repr__(obj) *)
  ob_text : string;                       (* the characters of a str *)
  ob_escape : result string;              (* html.escape(obj) *)
  ob_pattern : addr;                      (* obj.pattern of a compiled regex *)
  ob_iter : iteration addr;               (* iterating a sequence or set *)
  ob_items : iteration (addr * addr);     (* iterating d.items() *)
  ob_dir : result (list (addr * result addr))
                                          (* dir(obj), with getattr on each name *)
}.

Definition heap := list pyobj.

Definition NoneType : pytype :=
  {| ty_base := py_object; ty_exact := false;
     ty_name := "NoneType"; ty_module := "builtins" |}.

Definition no_iteration {A : Type} : iteration A :=
  {| yielded := []; stop := None |}.

(** Errors raised by the interpreter itself. *)
Definition IndexError : exn :=
  {| exc_is_Exception := true;
     exc_format := Some ("IndexError: string index out of range" ++ nl) |}.

(** The error of reading an attribute that an instance of [t] lacks. *)
Definition no_attribute (t : pytype) (name : string) : exn :=
  {| exc_is_Exception := true;
     exc_format := Some ("AttributeError: '" ++ ty_name t
                         ++ "' object has no attribute '" ++ name ++ "'"
                         ++ nl) |}.

(** The error of [bytes.replace] on arguments that are text. *)
Definition TypeError_replace : exn :=
  {| exc_is_Exception := true;
     exc_format :=
       Some ("TypeError: a bytes-like object is required, not 'str'" ++ nl) |}.

(** [html.escape] on an instance of a class that defines no [replace] of
    its own, of the text [text] when it is a [str]: [str.replace] does
    the escaping, [bytes.replace] rejects the text arguments, and any
    other object lacks the method. *)
Definition inherited_escape (t : pytype) (text : string) : result string :=
  match ty_base t with
  | py_str => Ret (escape text)
  | py_bytes => Raise TypeError_replace
  | _ => Raise (no_attribute t "replace")
  end.

(** [obj.items()] on an instance of a class without that method. *)
Definition no_items (t : pytype) : iteration (addr * addr) :=
  {| yielded := []; stop := Some (no_attribute t "items") |}.

(** Python's [None]; an address outside the heap denotes it. *)
Definition py_None : pyobj :=
  {| ob_type := NoneType; ob_class := None; ob_repr := Ret "None";
     ob_object_repr := "<NoneType object at 0x0>";
     ob_text := ""; ob_escape := inherited_escape NoneType "";
     ob_pattern := 0;
     ob_iter := no_iteration; ob_items := no_items NoneType;
     ob_dir := Ret [] |}.

Definition lookup (h : heap) (a : addr) : pyobj := nth a h py_None.

(** Whether [type(obj)] is [b] or derives from it, and [type(obj) is b].
    The first is the test [isinstance(obj, b)] whenever that call
    returns, see [isinstance_call]. *)
Definition isinstance (o : pyobj) (b : builtin) : bool :=
  builtin_eqb (ty_base (ob_type o)) b.

Definition type_is (o : pyobj) (b : builtin) : bool :=
  ty_exact (ob_type o) && builtin_eqb (ty_base (ob_type o)) b.

(** The call [isinstance(obj, b)] for a built-in type [b]: the answer is
    yes when [type(obj)] is [b] or derives from it; otherwise the call
    reads [obj.__class__], raises what that reading raises, and answers
    no when it gives [type(obj)].  [dump_object] makes such calls outside
    any [try]. *)
Definition isinstance_call (o : pyobj) (b : builtin) : result bool :=
  if isinstance o b then Ret true
  else match ob_class o with
       | Some e => Raise e
       | None => Ret false
       end.

(** The error of reading [obj.__class__] as the tests of [dispatch_repr]
    meet it.  These tests run inside the [try] of [repr], where an
    [Exception] of a test ends in [fallback_repr]; for them the model
    keeps the error on the instances of the classes that derive from
    none of the built-in types, which is where proxies are, and takes
    the reading to give [type(obj)] on the instances of the others. *)
Definition class_error (o : pyobj) : option exn :=
  if isinstance o py_object then ob_class o else None.

Definition isinstance_test (o : pyobj) (b : builtin) : result bool :=
  if isinstance o b then Ret true
  else match class_error o with
       | Some e => Raise e
       | None => Ret false
       end.

(** [isinstance(obj, (b1, ..., bn))] in [dispatch_repr], which asks
    about the types from left to right as
    [isinstance(obj, b1) or ... or isinstance(obj, bn)] does. *)
Fixpoint isinstance_any (o : pyobj) (bases : list builtin) : result bool :=
  match bases with
  | [] => Ret false
  | b :: rest =>
      match isinstance_test o b with
      | Raise e => Raise e
      | Ret true => Ret true
      | Ret false => isinstance_any o rest
      end
  end.

(** The error of [html.escape] on an object without [replace]. *)
Definition AttributeError_replace (o : pyobj) : exn :=
  no_attribute (ob_type o) "replace".

(** The error of the [%] operator on a name that the mapping lacks. *)
Definition KeyError : exn :=
  {| exc_is_Exception := true; exc_format := Some ("KeyError" ++ nl) |}.

(** [s[i]] for a non-negative [i] *)
Definition index (s : string) (i : nat) : result ascii :=
  match String.get i s with
  | Some c => Ret c
  | None => Raise IndexError
  end.

(* ------------------------------------------------------------------ *)
(** ** Computations of the generator *)

(** The generator's [_stack], oldest entry first as in the Python list. *)
Definition stack := list addr.

(** A computation of the generator: from the stack to an outcome and the
    stack it leaves, or to [None] when the budget ran out. *)
Definition eng (A : Type) : Type := stack -> option (result A * stack).

Definition ret {A : Type} (x : A) : eng A := fun st => Some (Ret x, st).
Definition raise {A : Type} (e : exn) : eng A := fun st => Some (Raise e, st).
Definition lift {A : Type} (r : result A) : eng A := fun st => Some (r, st).

Definition bind {A B : Type} (m : eng A) (k : A -> eng B) : eng B :=
  fun st =>
    match m st with
    | None => None
    | Some (Ret x, st') => k x st'
    | Some (Raise e, st') => Some (Raise e, st')
    end.

Declare Scope eng_scope.
Delimit Scope eng_scope with eng.
Notation "x <- m ;; k" := (bind m (fun x => k))
  (at level 61, m at next level, right associativity) : eng_scope.

(** [try: m  except Exception: handler] *)
Definition try_except {A : Type} (m : eng A) (handler : exn -> eng A) : eng A :=
  fun st =>
    match m st with
    | Some (Raise e, st') =>
        if exc_is_Exception e then handler e st' else Some (Raise e, st')
    | other => other
    end.

(** [try: m  finally: cleanup] for a cleanup that only changes the stack. *)
Definition try_finally {A : Type} (m : eng A) (cleanup : stack -> stack) : eng A :=
  fun st =>
    match m st with
    | None => None
    | Some (r, st') => Some (r, cleanup st')
    end.

(** The end of a [for] loop: the iterator is exhausted, or raises. *)
Definition finish_iteration (s : option exn) : eng unit :=
  match s with
  | None => ret tt
  | Some e => raise e
  end.

(* ------------------------------------------------------------------ *)
(** ** The module *)

(** [_Helper.__repr__] *)
Definition Helper_repr : string := "Type help(object) for help about object.".

(** [OBJECT_DUMP_HTML] *)
Definition OBJECT_DUMP_HTML : string :=
  "<div class=box>" ++ nl ++
  "  <h3>%(title)s</h3>" ++ nl ++
  "  %(repr)s" ++ nl ++
  "  <table>%(items)s</table>" ++ nl ++
  "</div>".

(** [_add_subclass_info(inner, obj, base)]; [base] lists the one type or
    the types of the tuple. *)
Definition _add_subclass_info (inner : string) (obj : pyobj) (base : list builtin)
    : string :=
  if existsb (type_is obj) base then inner
  else
    let cls := ob_type obj in
    let module :=
      if existsb (String.eqb (ty_module cls)) ["__builtin__"; "exceptions"]
      then ""
      else span "module" ++ ty_module cls ++ ".</span>" in
    module ++ ty_name cls ++ "(" ++ inner ++ ")".

(** [DebugReprGenerator.__init__]: the initial [_stack]. *)
Definition DebugReprGenerator_init : stack := [].

(** [fallback_repr], for the exception [sys.exc_info()] reports, which is
    the one being handled. *)
Definition fallback_repr (e : exn) : string :=
  let info := match exc_format e with
              | Some s => s
              | None => "?"
              end in
  span "brokenrepr" ++ "&lt;broken repr (" ++ escape (strip info) ++ ")&gt;</span>".

(** A name of a row of the object dump: the key of a mapping or a name
    that [dir] returned, an object either way. *)
Notation rowkey := addr (only parsing).

(** The methods of the class [DebugReprGenerator]. *)
Module DebugReprGenerator.
Section Engine.

(** [codecs.decode(s, "unicode-escape", "ignore")], the module-level
    [helper] and the objects that exist; rendering changes none. *)
Variable unicode_escape_decode : string -> string.
Variable helper : addr.
Variable h : heap.

(** The body of the loop of [_sequence_repr_maker.proxy], from element
    number [idx] on. *)
Fixpoint sequence_loop (self_repr : addr -> eng string) (limit idx : Z)
    (items : list addr) (buf : list string) (have_extended_section : bool)
    : eng (list string * bool) :=
  match items with
  | [] => ret (buf, have_extended_section)
  | item :: rest =>
      let buf := if (idx =? 0)%Z then buf else snoc buf ", " in
      let buf := if (idx =? limit)%Z then snoc buf SPAN_EXTENDED else buf in
      let have_extended_section :=
        if (idx =? limit)%Z then true else have_extended_section in
      (f <- self_repr item ;;
       sequence_loop self_repr limit (idx + 1) rest (snoc buf f)
         have_extended_section)%eng
  end.

(** [_sequence_repr_maker(left, right, base, limit)] *)
Definition _sequence_repr_maker (left right : string) (base : builtin)
    (limit : Z) (self_repr : addr -> eng string) (obj : addr)
    (recursive : bool) : eng string :=
  if recursive then
    ret (_add_subclass_info (left ++ "..." ++ right) (lookup h obj) [base])
  else
    (r <- sequence_loop self_repr limit 0 (yielded (ob_iter (lookup h obj)))
           [left] false ;;
     _ <- finish_iteration (stop (ob_iter (lookup h obj))) ;;
     let buf := fst r in
     let buf := if snd r then snoc buf "</span>" else buf in
     let buf := snoc buf right in
     ret (_add_subclass_info (join "" buf) (lookup h obj) [base]))%eng.

(** The five renderers made by it, with its default limit of 8. *)
Definition list_repr := _sequence_repr_maker "[" "]" py_list 8.
Definition tuple_repr := _sequence_repr_maker "(" ")" py_tuple 8.
Definition set_repr := _sequence_repr_maker "set([" "])" py_set 8.
Definition frozenset_repr :=
  _sequence_repr_maker "frozenset([" "])" py_frozenset 8.
Definition deque_repr :=
  _sequence_repr_maker (span "module" ++ "collections.</span>deque([") "])"
    py_deque 8.

Definition regex_repr (obj : addr) : result string :=
  match ob_repr (lookup h (ob_pattern (lookup h obj))) with
  | Raise e => Raise e
  | Ret pattern =>
      let pattern := unicode_escape_decode pattern in
      let pattern := "r" ++ pattern in
      Ret ("re.compile(" ++ span "string regex" ++ pattern ++ "</span>)")
  end.

(** Membership of a one-character [c] in the two quote characters. *)
Definition is_quote (c : ascii) : bool :=
  (c =? "'")%char || (c =? dquote)%char.

(** The test of [string_repr] that the repr looks like a standard
    string: [r[0]] is a quote, or [r[0]] is b and [r[1]] is a quote. *)
Definition looks_like_string (r : string) : result bool :=
  match index r 0 with
  | Raise e => Raise e
  | Ret c0 =>
      if is_quote c0 then Ret true
      else if (c0 =? "b")%char then
        match index r 1 with
        | Raise e => Raise e
        | Ret c1 => Ret (is_quote c1)
        end
      else Ret false
  end.

(** The fragment [out] that [string_repr] builds from [r = repr(obj)]. *)
Definition string_out (r : string) (limit : Z) : string :=
  let buf := [span "string"] in
  let buf :=
    if (Z.of_nat (String.length r) - limit >? 2)%Z then
      extend buf [escape (slice_to r limit); SPAN_EXTENDED;
                  escape (slice_from r limit); "</span>"]
    else snoc buf (escape r) in
  let buf := snoc buf "</span>" in
  join "" buf.

Definition string_repr (obj : addr) (limit : Z) : result string :=
  match ob_repr (lookup h obj) with
  | Raise e => Raise e
  | Ret r =>
      let out := string_out r limit in
      match looks_like_string r with
      | Raise e => Raise e
      | Ret true => Ret (_add_subclass_info out (lookup h obj) [py_bytes; py_str])
      | Ret false => Ret out
      end
  end.

(** The body of the loop of [dict_repr], from entry number [idx] on. *)
Fixpoint dict_loop (self_repr : addr -> eng string) (limit idx : Z)
    (entries : list (addr * addr)) (buf : list string)
    (have_extended_section : bool) : eng (list string * bool) :=
  match entries with
  | [] => ret (buf, have_extended_section)
  | (key, value) :: rest =>
      let buf := if (idx =? 0)%Z then buf else snoc buf ", " in
      let buf := if (idx =? limit - 1)%Z then snoc buf SPAN_EXTENDED else buf in
      let have_extended_section :=
        if (idx =? limit - 1)%Z then true else have_extended_section in
      (k <- self_repr key ;;
       v <- self_repr value ;;
       dict_loop self_repr limit (idx + 1) rest
         (snoc buf (span "pair" ++ span "key" ++ k ++ "</span>: "
                    ++ span "value" ++ v ++ "</span></span>"))
         have_extended_section)%eng
  end.

Definition dict_repr (self_repr : addr -> eng string) (d : addr)
    (recursive : bool) (limit : Z) : eng string :=
  if recursive then ret (_add_subclass_info "{...}" (lookup h d) [py_dict])
  else
    (r <- dict_loop self_repr limit 0 (yielded (ob_items (lookup h d)))
           ["{"] false ;;
     _ <- finish_iteration (stop (ob_items (lookup h d))) ;;
     let buf := fst r in
     let buf := if snd r then snoc buf "</span>" else buf in
     let buf := snoc buf "}" in
     ret (_add_subclass_info (join "" buf) (lookup h d) [py_dict]))%eng.

Definition object_repr (obj : addr) : result string :=
  match ob_repr (lookup h obj) with
  | Raise e => Raise e
  | Ret r => Ret (span "object" ++ escape r ++ "</span>")
  end.

(** The branch of [dispatch_repr] for [int], [float] and [complex]. *)
Definition number_repr (obj : addr) : result string :=
  match ob_repr (lookup h obj) with
  | Raise e => Raise e
  | Ret r => Ret (span "number" ++ r ++ "</span>")
  end.

(** [if isinstance(obj, bases): yes] followed by [no]; an error of the
    test is raised in place of both. *)
Definition if_isinstance {A : Type} (o : pyobj) (bases : list builtin)
    (yes no : eng A) : eng A :=
  (test <- lift (isinstance_any o bases) ;; if test : bool then yes else no)%eng.

Definition dispatch_repr (self_repr : addr -> eng string) (obj : addr)
    (recursive : bool) : eng string :=
  let o := lookup h obj in
  if (obj =? helper)%nat then ret (span "help" ++ Helper_repr ++ "</span>")
  else
    if_isinstance o [py_int; py_float; py_complex] (lift (number_repr obj))
   (if_isinstance o [py_str; py_bytes] (lift (string_repr obj 70))
   (if_isinstance o [py_Pattern] (lift (regex_repr obj))
   (if_isinstance o [py_list] (list_repr self_repr obj recursive)
   (if_isinstance o [py_tuple] (tuple_repr self_repr obj recursive)
   (if_isinstance o [py_set] (set_repr self_repr obj recursive)
   (if_isinstance o [py_frozenset] (frozenset_repr self_repr obj recursive)
   (if_isinstance o [py_dict] (dict_repr self_repr obj recursive 5)
   (if_isinstance o [py_deque] (deque_repr self_repr obj recursive)
   (lift (object_repr obj)))))))))).

(** [for item in self._stack: if item is obj: ...] *)
Definition on_stack (obj : addr) (st : stack) : bool :=
  existsb (Nat.eqb obj) st.

(** [DebugReprGenerator.repr]; [fuel] bounds the depth of nested calls.
    The stack ends with [obj] when the [finally] clause pops it, see
    [dispatch_keeps]. *)
Fixpoint repr (fuel : nat) (obj : addr) : eng string :=
  match fuel with
  | O => fun _ => None
  | S fuel' =>
      fun st =>
        let recursive := on_stack obj st in
        try_finally
          (try_except (dispatch_repr (repr fuel') obj recursive)
             (fun e => ret (fallback_repr e)))
          (@removelast addr)
          (snoc st obj)
  end.

(** [debug_repr] *)
Definition debug_repr (fuel : nat) (obj : addr) : option (result string * stack) :=
  repr fuel obj DebugReprGenerator_init.

(** [html.escape(key)] on a row name.  [escape] calls [key.replace]:
    on an exact [str] that is the built-in method; on any other object
    the outcome is [ob_escape]. *)
Definition escape_key (key : rowkey) : result string :=
  if type_is (lookup h key) py_str
  then Ret (escape (ob_text (lookup h key)))
  else ob_escape (lookup h key).

Fixpoint html_rows (items : list (rowkey * string)) (html_items : list string)
    : result (list string) :=
  match items with
  | [] => Ret html_items
  | (key, value) :: rest =>
      match escape_key key with
      | Raise e => Raise e
      | Ret k =>
          html_rows rest
            (snoc html_items ("<tr><th>" ++ k ++ "<td><pre class=repr>"
                              ++ value ++ "</pre>"))
      end
  end.

(** [repr if repr else ''] *)
Definition repr_or_empty (repr : option string) : string :=
  match repr with
  | Some (String c r) => String c r
  | _ => ""
  end.

Definition render_object_dump (items : list (rowkey * string)) (title : string)
    (repr : option string) : result string :=
  match html_rows items [] with
  | Raise e => Raise e
  | Ret html_items =>
      let html_items :=
        match html_items with
        | [] => snoc html_items "<tr><td><em>Nothing</em>"
        | _ => html_items
        end in
      match percent_format OBJECT_DUMP_HTML
              [("title", escape title);
               ("repr", "<pre class=repr>" ++ repr_or_empty repr ++ "</pre>");
               ("items", join nl html_items)] with
      | Some html => Ret html
      | None => Raise KeyError
      end
  end.

(** The first loop of [dump_object]; [None] is [items = None] after the
    [break]. *)
Fixpoint contents_loop (self_repr : addr -> eng string)
    (entries : list (addr * addr)) (items : list (rowkey * string))
    : eng (option (list (rowkey * string))) :=
  match entries with
  | [] => ret (Some items)
  | (key, value) :: rest =>
      (text <- lift (isinstance_call (lookup h key) py_str) ;;
       if negb text then ret None
       else
         f <- self_repr value ;;
         contents_loop self_repr rest (snoc items (key, f)))%eng
  end.

(** The second loop of [dump_object], over [dir(obj)]. *)
Fixpoint details_loop (self_repr : addr -> eng string)
    (names : list (addr * result addr)) (items : list (rowkey * string))
    : eng (list (rowkey * string)) :=
  match names with
  | [] => ret items
  | (key, attr) :: rest =>
      (row <- try_except
                (v <- lift attr ;;
                 f <- self_repr v ;;
                 ret (Some (key, f)))
                (fun _ => ret None) ;;
       details_loop self_repr rest
         match row with
         | Some r => snoc items r
         | None => items
         end)%eng
  end.

Definition dump_object (fuel : nat) (obj : addr) : eng string :=
  let o := lookup h obj in
  (mapping <- lift (isinstance_call o py_dict) ;;
   items <- (if mapping : bool then
               r <- contents_loop (repr fuel) (yielded (ob_items o)) [] ;;
               match r with
               | None => ret None
               | Some items =>
                   _ <- finish_iteration (stop (ob_items o)) ;; ret (Some items)
               end
             else ret None) ;;
   r <- match items with
        | Some items => ret (items, "Contents of", None)
        | None =>
            top <- repr fuel obj ;;
            names <- lift (ob_dir o) ;;
            items <- details_loop (repr fuel) names [] ;;
            ret (items, "Details for", Some top)
        end ;;
   let '(items, title, top) := r in
   let title := title ++ " " ++ slice (ob_object_repr o) 1 (-1) in
   lift (render_object_dump items title top))%eng.

(** The list comprehension of [dump_locals]. *)
Fixpoint locals_loop (self_repr : addr -> eng string)
    (entries : list (addr * addr)) (items : list (rowkey * string))
    : eng (list (rowkey * string)) :=
  match entries with
  | [] => ret items
  | (key, value) :: rest =>
      (f <- self_repr value ;;
       locals_loop self_repr rest (snoc items (key, f)))%eng
  end.

Definition dump_locals (fuel : nat) (d : addr) : eng string :=
  (items <- locals_loop (repr fuel) (yielded (ob_items (lookup h d))) [] ;;
   _ <- finish_iteration (stop (ob_items (lookup h d))) ;;
   lift (render_object_dump items "Local variables in frame" None))%eng.

End Engine.
End DebugReprGenerator.
Import DebugReprGenerator.

(* ------------------------------------------------------------------ *)
(** ** Vocabulary of the properties *)

(** The categories whose renderer takes [recursive]. *)
Definition is_container (o : pyobj) : bool :=
  isinstance o py_list || isinstance o py_tuple || isinstance o py_set
  || isinstance o py_frozenset || isinstance o py_dict || isinstance o py_deque.







(** The text fragment of [string_repr], split after [prefix] or whole. *)
Definition split_fragment (prefix suffix : string) : string :=
  span "string" ++ escape prefix ++ SPAN_EXTENDED ++ escape suffix
  ++ "</span>" ++ "</span>".

Definition whole_fragment (r : string) : string :=
  span "string" ++ escape r ++ "</span>".

(** The object dump: a title, the header block, the table. *)
Definition dump_page (title header rows : string) : string :=
  "<div class=box>" ++ nl ++
  "  <h3>" ++ title ++ "</h3>" ++ nl ++
  "  <pre class=repr>" ++ header ++ "</pre>" ++ nl ++
  "  <table>" ++ rows ++ "</table>" ++ nl ++
  "</div>".

(** The number of objects of the heap that are not on the stack: it
    bounds the depth of the calls still to be nested. *)
Definition unvisited (h : heap) (st : stack) : nat :=
  length (filter (fun a => negb (on_stack a st)) (seq 0 (length h))).


(** Objects whose methods raise nothing but instances of [Exception]. *)
Definition raises_Exception {A : Type} (r : result A) : bool :=
  match r with
  | Ret _ => true
  | Raise e => exc_is_Exception e
  end.

Definition stops_with_Exception (s : option exn) : bool :=
  match s with
  | None => true
  | Some e => exc_is_Exception e
  end.

Definition tame (o : pyobj) : bool :=
  raises_Exception (ob_repr o)
  && stops_with_Exception (stop (ob_iter o))
  && stops_with_Exception (stop (ob_items o))
  && match ob_dir o with
     | Ret names => forallb (fun n => raises_Exception (snd n)) names
     | Raise e => exc_is_Exception e
     end
  && stops_with_Exception (ob_class o).

Definition tame_heap (h : heap) : bool := forallb tame h.

(** The outcome of a call that returned a fragment. *)
Definition fragment_of (r : option (result string * stack)) : string :=
  match r with
  | Some (Ret f, _) => f
  | _ => ""
  end.

(** The rows [dump_object] makes of the names of [dir]: one for each
    attribute that could be read. *)
Fixpoint readable (names : list (addr * result addr)) : list (addr * addr) :=
  match names with
  | [] => []
  | (name, Ret v) :: rest => (name, v) :: readable rest
  | (name, Raise _) :: rest => readable rest
  end.

(** [object.__repr__(obj)[1:-1]] *)
Definition identity_descriptor (o : pyobj) : string :=
  slice (ob_object_repr o) 1 (-1).

(* ------------------------------------------------------------------ *)
(** ** Sample objects *)

Definition exact (b : builtin) (name : string) : pytype :=
  {| ty_base := b; ty_exact := true; ty_name := name; ty_module := "builtins" |}.

Definition subclass (b : builtin) (module name : string) : pytype :=
  {| ty_base := b; ty_exact := false; ty_name := name; ty_module := module |}.

(** An object that is neither iterated nor inspected by [dir]. *)
Definition plain (t : pytype) (r : result string) (text : string) : pyobj :=
  {| ob_type := t; ob_class := None; ob_repr := r;
     ob_object_repr := "<" ++ ty_name t ++ " object at 0x7f3a>";
     ob_text := text; ob_escape := inherited_escape t text; ob_pattern := 0;
     ob_iter := no_iteration; ob_items := no_items t; ob_dir := Ret [] |}.

Definition py_number (r : string) : pyobj := plain (exact py_int "int") (Ret r) "".

Definition py_text (s r : string) : pyobj := plain (exact py_str "str") (Ret r) s.

Definition py_sequence (t : pytype) (items : list addr) : pyobj :=
  {| ob_type := t; ob_class := None; ob_repr := Ret "";
     ob_object_repr := "<" ++ ty_name t ++ " object at 0x7f3b>";
     ob_text := ""; ob_escape := inherited_escape t ""; ob_pattern := 0;
     ob_iter := {| yielded := items; stop := None |};
     ob_items := no_items t; ob_dir := Ret [] |}.

Definition py_mapping (t : pytype) (items : list (addr * addr)) : pyobj :=
  {| ob_type := t; ob_class := None; ob_repr := Ret "";
     ob_object_repr := "<" ++ ty_name t ++ " object at 0x7f3c>";
     ob_text := ""; ob_escape := inherited_escape t ""; ob_pattern := 0;
     ob_iter := no_iteration;
     ob_items := {| yielded := items; stop := None |}; ob_dir := Ret [] |}.

Definition py_compiled (pattern : addr) : pyobj :=
  {| ob_type := exact py_Pattern "Pattern"; ob_class := None; ob_repr := Ret "";
     ob_object_repr := "<re.Pattern object at 0x7f3d>";
     ob_text := "";
     ob_escape := inherited_escape (exact py_Pattern "Pattern") "";
     ob_pattern := pattern;
     ob_iter := no_iteration;
     ob_items := no_items (exact py_Pattern "Pattern"); ob_dir := Ret [] |}.

Definition py_instance (name : string) (r : result string)
    (dir : result (list (addr * result addr))) : pyobj :=
  {| ob_type := subclass py_object "__main__" name; ob_class := None;
     ob_repr := r;
     ob_object_repr := "<__main__." ++ name ++ " object at 0x7f3e>";
     ob_text := "";
     ob_escape := inherited_escape (subclass py_object "__main__" name) "";
     ob_pattern := 0;
     ob_iter := no_iteration;
     ob_items := no_items (subclass py_object "__main__" name);
     ob_dir := dir |}.

Definition KeyboardInterrupt : exn :=
  {| exc_is_Exception := false; exc_format := Some ("KeyboardInterrupt" ++ nl) |}.

Definition ValueError : exn :=
  {| exc_is_Exception := true; exc_format := Some ("ValueError: no" ++ nl) |}.

Definition Unprintable : exn :=
  {| exc_is_Exception := true; exc_format := None |}.

(** The literal of a text of eighty characters. *)
Definition long_literal : string :=
  Eval cbv in "'" ++ String.concat "" (repeat "ab" 40) ++ "'".

(** On a literal without a backslash, unicode-escape decoding changes
    nothing; the samples decode no other literal. *)
Definition sample_decode (s : string) : string := s.

Definition sample_helper : addr := 0.

Definition sample_heap : heap :=
  [ (* 0: helper *)
    plain (subclass py_object "werkzeug.debug.repr" "_Helper") (Ret Helper_repr) "";
    (* 1..10: the integers 0..9 *)
    py_number "0"; py_number "1"; py_number "2"; py_number "3"; py_number "4";
    py_number "5"; py_number "6"; py_number "7"; py_number "8"; py_number "9";
    (* 11: list(range(10)) *)
    py_sequence (exact py_list "list") [1; 2; 3; 4; 5; 6; 7; 8; 9; 10];
    (* 12: a = []; a.append(a) *)
    py_sequence (exact py_list "list") [12];
    (* 13: b = [a] *)
    py_sequence (exact py_list "list") [12];
    (* 14: {0: 0, 1: 1, 2: 2, 3: 3, 4: 4} *)
    py_mapping (exact py_dict "dict") [(1, 1); (2, 2); (3, 3); (4, 4); (5, 5)];
    (* 15: an instance of a list subclass L with __module__ "a<b" *)
    py_sequence (subclass py_list "a<b" "L") [1];
    (* 16: the text <b> *)
    py_text "<b>" "'<b>'";
    (* 17: re.compile("<b>") *)
    py_compiled 16;
    (* 18: Color.RED of class Color(enum.IntEnum) *)
    plain (subclass py_int "__main__" "Color") (Ret "<Color.RED: 1>") "";
    (* 19: an instance of a str subclass whose __repr__ returns the empty text *)
    plain (subclass py_str "__main__" "S") (Ret "") "x";
    (* 20: an object whose __repr__ raises an error that cannot be summarised *)
    py_instance "Mute" (Raise Unprintable) (Ret []);
    (* 21: an object whose __repr__ raises ValueError *)
    py_instance "Bad" (Raise ValueError) (Ret []);
    (* 22: (bad, 1) *)
    py_sequence (exact py_tuple "tuple") [21; 2];
    (* 23: an object whose __dir__ raises ValueError *)
    py_instance "NoDir" (Ret "<nodir>") (Raise ValueError);
    (* 24, 25: the texts x and y *)
    py_text "x" "'x'"; py_text "y" "'y'";
    (* 26: {"x": 1, "y": a} *)
    py_mapping (exact py_dict "dict") [(24, 2); (25, 12)];
    (* 27: an object with attributes p = 1, q raising ValueError, r = a,
       whose names are the objects 30, 31 and 32 *)
    py_instance "Point" (Ret "<point>")
      (Ret [(30, Ret 2); (31, Raise ValueError); (32, Ret 12)]);
    (* 28: a text of eighty characters *)
    py_text (slice long_literal 1 (-1)) long_literal;
    (* 29: {0: 0, ..., 5: 5} *)
    py_mapping (exact py_dict "dict")
      [(1, 1); (2, 2); (3, 3); (4, 4); (5, 5); (6, 6)];
    (* 30, 31, 32: the texts p, q and r *)
    py_text "p" "'p'"; py_text "q" "'q'"; py_text "r" "'r'"
  ].

(** Objects that raise [KeyboardInterrupt], which is no [Exception]. *)
Definition interrupt_heap : heap :=
  [ (* 0: helper *)
    plain (subclass py_object "werkzeug.debug.repr" "_Helper") (Ret Helper_repr) "";
    (* 1: an object whose __repr__ raises KeyboardInterrupt *)
    py_instance "Stop" (Raise KeyboardInterrupt) (Ret []);
    (* 2: [stop] *)
    py_sequence (exact py_list "list") [1];
    (* 3: an object whose attribute p raises KeyboardInterrupt when read *)
    py_instance "Prop" (Ret "<prop>") (Ret [(4, Raise KeyboardInterrupt)]);
    (* 4: the text p *)
    py_text "p" "'p'"
  ].

Definition sample_fuel : nat := 40.

Definition sample_repr (obj : addr) (st : stack) : option (result string * stack) :=
  repr sample_decode sample_helper sample_heap sample_fuel obj st.

Definition sample_dump_object (obj : addr) : option (result string * stack) :=
  dump_object sample_decode sample_helper sample_heap sample_fuel obj [].

Definition sample_dump_locals (d : addr) : option (result string * stack) :=
  dump_locals sample_decode sample_helper sample_heap sample_fuel d [].

(** The fragment of a sample object rendered below the ancestors [st]. *)
Definition sample_fragment (st : stack) (obj : addr) : string :=
  fragment_of (repr sample_decode sample_helper sample_heap 39 obj st).




(** Objects whose class cannot be read, and keys that are no exact
    [str]. *)
Definition RuntimeError : exn :=
  {| exc_is_Exception := true;
     exc_format := Some ("RuntimeError: object is not bound" ++ nl) |}.

Definition with_class_error (o : pyobj) (e : exn) : pyobj :=
  {| ob_type := ob_type o; ob_class := Some e; ob_repr := ob_repr o;
     ob_object_repr := ob_object_repr o; ob_text := ob_text o;
     ob_escape := ob_escape o; ob_pattern := ob_pattern o;
     ob_iter := ob_iter o; ob_items := ob_items o; ob_dir := ob_dir o |}.

Definition with_escape (o : pyobj) (r : result string) : pyobj :=
  {| ob_type := ob_type o; ob_class := ob_class o; ob_repr := ob_repr o;
     ob_object_repr := ob_object_repr o; ob_text := ob_text o;
     ob_escape := r; ob_pattern := ob_pattern o;
     ob_iter := ob_iter o; ob_items := ob_items o; ob_dir := ob_dir o |}.

Definition exotic_heap : heap :=
  [ (* 0: helper *)
    plain (subclass py_object "werkzeug.debug.repr" "_Helper") (Ret Helper_repr) "";
    (* 1: the integer 1 *)
    py_number "1";
    (* 2: the bytes b'k' *)
    plain (exact py_bytes "bytes") (Ret "b'k'") "";
    (* 3: {b'k': 1} *)
    py_mapping (exact py_dict "dict") [(2, 1)];
    (* 4: a proxy without a target: reading its __class__ raises
       RuntimeError *)
    with_class_error (py_instance "Proxy" (Ret "<proxy>") (Ret [])) RuntimeError;
    (* 5: an instance of a str subclass K whose replace raises ValueError *)
    with_escape (plain (subclass py_str "__main__" "K") (Ret "'k'") "k")
      (Raise ValueError);
    (* 6: {K('k'): 1} *)
    py_mapping (exact py_dict "dict") [(5, 1)];
    (* 7: {proxy: 1} *)
    py_mapping (exact py_dict "dict") [(4, 1)];
    (* 8: an instance of a str subclass U whose replace returns U *)
    with_escape (plain (subclass py_str "__main__" "U") (Ret "'u'") "u")
      (Ret "U");
    (* 9: {U('u'): 1} *)
    py_mapping (exact py_dict "dict") [(8, 1)];
    (* 10: an instance of a bytes subclass whose __repr__ returns b *)
    plain (subclass py_bytes "__main__" "B") (Ret "b") "";
    (* 11: an instance of an int subclass Odd whose __class__ is a
       property that raises RuntimeError *)
    with_class_error (plain (subclass py_int "__main__" "Odd") (Ret "3") "")
      RuntimeError;
    (* 12: {Odd(3): 1} *)
    py_mapping (exact py_dict "dict") [(11, 1)]
  ].

(* ------------------------------------------------------------------ *)
(** ** The help object *)

(** [HELP_HTML] *)
Definition HELP_HTML : string :=
  "<div class=box>" ++ nl ++
  "  <h3>%(title)s</h3>" ++ nl ++
  "  <pre class=help>%(text)s</pre>" ++ nl ++
  "</div>".

(** Regular expressions, as far as [_paragraph_re] needs them. *)
Inductive regex : Type :=
| Lit (c : ascii)                 (* one character *)
| Cat (r1 r2 : regex)             (* r1 r2 *)
| Alt (r1 r2 : regex)             (* r1|r2 *)
| AtLeast (min : nat) (r : regex) (* r{min,} *).

(** The greedy repetition of [body], backtracking: one more iteration is
    tried first, and the repetition stops when none leads to a match.
    An iteration that consumes nothing is not repeated.  [count]
    iterations are done; [fuel] bounds the iterations to come. *)
Fixpoint repeat_from {A : Type}
    (body : string -> (string -> option A) -> option A) (min : nat)
    (k : string -> option A) (fuel count : nat) (s : string) : option A :=
  match fuel with
  | O => if (min <=? count)%nat then k s else None
  | S fuel' =>
      match body s (fun s' =>
                      if (String.length s' <? String.length s)%nat
                      then repeat_from body min k fuel' (S count) s'
                      else None) with
      | Some x => Some x
      | None => if (min <=? count)%nat then k s else None
      end
  end.

(** Matching [r] at the start of [s] by backtracking, in the order of
    Python's [re]: the alternatives from left to right, a repetition as
    far as it can go; [k] is what has to match after [r]. *)
Fixpoint rmatch {A : Type} (r : regex) (s : string) (k : string -> option A)
    : option A :=
  match r with
  | Lit c =>
      match s with
      | String c' s' => if (c =? c')%char then k s' else None
      | EmptyString => None
      end
  | Cat r1 r2 => rmatch r1 s (fun s' => rmatch r2 s' k)
  | Alt r1 r2 =>
      match rmatch r1 s k with
      | Some x => Some x
      | None => rmatch r2 s k
      end
  | AtLeast min r' => repeat_from (rmatch r') min k (String.length s) 0 s
  end.

(** [pattern.split(s)] for a pattern without groups: the next match is
    looked for from every position in turn; [piece] is the text since
    the last match.  A match of the empty text is passed over, which
    [_paragraph_re] has none of. *)
Fixpoint split_from (fuel : nat) (r : regex) (piece s : string) : list string :=
  match fuel with
  | O => [piece ++ s]
  | S fuel' =>
      let advance :=
        match s with
        | EmptyString => [piece]
        | String c s' => split_from fuel' r (piece ++ String c "") s'
        end in
      match rmatch r s Some with
      | Some rest =>
          if (String.length rest <? String.length s)%nat
          then piece :: split_from fuel' r "" rest
          else advance
      | None => advance
      end
  end.

Definition re_split (r : regex) (s : string) : list string :=
  split_from (S (String.length s)) r "" s.

Definition CR : ascii := Eval cbv in ascii_of_nat 13.
Definition LF : ascii := Eval cbv in ascii_of_nat 10.

(** One line end of [_paragraph_re]: CR LF, or CR, or LF. *)
Definition line_end : regex :=
  Alt (Cat (Lit CR) (Lit LF)) (Alt (Lit CR) (Lit LF)).

(** [_paragraph_re]: two or more line ends. *)
Definition _paragraph_re : regex := AtLeast 2 line_end.

(** [_Helper.__call__], as the text it writes to [sys.stdout]: [printed]
    is [None] when no topic is given, and else the text that
    [pydoc.help(topic)] printed, as [sys.stdout.reset()] returns it,
    decoded. *)
Definition Helper_call (printed : option string) : result string :=
  match printed with
  | None => Ret ("<span class=help>" ++ Helper_repr ++ "</span>")
  | Some rv =>
      let paragraphs := re_split _paragraph_re rv in
      let title_text :=
        if (1 <? length paragraphs)%nat
        then match paragraphs with
             | title :: rest => Ret (title, join (nl ++ nl) rest)
             | [] => Raise IndexError
             end
        else match paragraphs with
             | text :: _ => Ret ("Help", text)
             | [] => Raise IndexError
             end in
      match title_text with
      | Raise e => Raise e
      | Ret (title, text) =>
          match percent_format HELP_HTML [("title", title); ("text", text)] with
          | Some html => Ret html
          | None => Raise KeyError
          end
      end
  end.

(** The help page of a title and a text. *)
Definition help_page (title text : string) : string :=
  "<div class=box>" ++ nl ++
  "  <h3>" ++ title ++ "</h3>" ++ nl ++
  "  <pre class=help>" ++ text ++ "</pre>" ++ nl ++
  "</div>".

(** A line-end character, and the texts without two of them in a row. *)
Definition is_break (c : ascii) : bool := (c =? CR)%char || (c =? LF)%char.

Fixpoint no_double_break (s : string) : bool :=
  match s with
  | String c1 ((String c2 _) as s') =>
      negb (is_break c1 && is_break c2) && no_double_break s'
  | _ => true
  end.

Fixpoint all_breaks (s : string) : bool :=
  match s with
  | EmptyString => true
  | String c s' => is_break c && all_breaks s'
  end.

(** The last character of a text is no line end, nor is the first. *)
Fixpoint ends_plain (s : string) : bool :=
  match s with
  | EmptyString => true
  | String c EmptyString => negb (is_break c)
  | String _ s' => ends_plain s'
  end.

Definition starts_plain (s : string) : bool :=
  match s with
  | EmptyString => true
  | String c _ => negb (is_break c)
  end.

(* ------------------------------------------------------------------ *)
(** ** werkzeug.middleware.profiler: the name of the profile file *)

(** [c in chars] *)
Fixpoint mem_char (c : ascii) (chars : string) : bool :=
  match chars with
  | EmptyString => false
  | String c' chars' => (c =? c')%char || mem_char c chars'
  end.

(** [s.strip(chars)] *)
Fixpoint lstrip_chars (chars s : string) : string :=
  match s with
  | EmptyString => ""
  | String c s' => if mem_char c chars then lstrip_chars chars s' else s
  end.

Fixpoint rstrip_chars (chars s : string) : string :=
  match s with
  | EmptyString => ""
  | String c s' =>
      match rstrip_chars chars s' with
      | EmptyString => if mem_char c chars then "" else String c ""
      | t => String c t
      end
  end.

Definition strip_chars (chars s : string) : string :=
  rstrip_chars chars (lstrip_chars chars s).

(** [s.replace(old, new)] for an [old] of one character *)
Fixpoint replace_char (old : ascii) (new s : string) : string :=
  match s with
  | EmptyString => ""
  | String c s' =>
      (if (c =? old)%char then new else String c "") ++ replace_char old new s'
  end.

(** The text entries of the WSGI [environ]. *)
Definition environ := list (string * string).

Definition KeyError_of (key : string) : exn :=
  {| exc_is_Exception := true;
     exc_format := Some ("KeyError: '" ++ key ++ "'" ++ nl) |}.

Definition AttributeError_strip : exn :=
  {| exc_is_Exception := true;
     exc_format :=
       Some ("AttributeError: 'NoneType' object has no attribute 'strip'" ++ nl) |}.

(** [environ.get("PATH_INFO").strip("/").replace("/", ".") or "root"] *)
Definition filename_path (env : environ) : result string :=
  match env_get env "PATH_INFO" with
  | None => Raise AttributeError_strip
  | Some path_info =>
      let path := replace_char "/" "." (strip_chars "/" path_info) in
      Ret (if (path =? "")%string then "root" else path)
  end.

(** The arguments [method] and [path] of the call of [format] in
    [ProfilerMiddleware.__call__], evaluated in this order. *)
Definition filename_fields (env : environ) : result (string * string) :=
  match env_get env "REQUEST_METHOD" with
  | None => Raise (KeyError_of "REQUEST_METHOD")
  | Some method =>
      match filename_path env with
      | Raise e => Raise e
      | Ret path => Ret (method, path)
      end
  end.

(** [environ.get("PATH_INFO", "")], which the report to the stream uses. *)
Definition stream_path_info (env : environ) : string :=
  match env_get env "PATH_INFO" with
  | None => ""
  | Some path_info => path_info
  end.

(** The entries of a request for /api/v1/users/ *)
Definition sample_environ : environ :=
  [("REQUEST_METHOD", "GET"); ("PATH_INFO", "/api/v1/users/")].

(** A text without the character [c]. *)
Fixpoint lacks (c : ascii) (s : string) : bool :=
  match s with
  | EmptyString => true
  | String c' s' => negb (c' =? c)%char && lacks c s'
  end.

(* ------------------------------------------------------------------ *)
(** ** More vocabulary of the object dump *)

(** The outcome of the tests [isinstance(key, str)] of [dump_object] on
    the keys of a mapping, which stop at the first key that is no text:
    all keys are text, one is not, or a test raises. *)
Fixpoint text_keys (h : heap) (entries : list (addr * addr)) : result bool :=
  match entries with
  | [] => Ret true
  | (key, _) :: rest =>
      match isinstance_call (lookup h key) py_str with
      | Raise e => Raise e
      | Ret false => Ret false
      | Ret true => text_keys h rest
      end
  end.

(** Whether [dump_object] shows the contents of a mapping: the outcome
    of [isinstance(obj, dict)] followed by the tests of the keys. *)
Definition shows_contents (h : heap) (o : pyobj) : result bool :=
  match isinstance_call o py_dict with
  | Raise e => Raise e
  | Ret false => Ret false
  | Ret true => text_keys h (yielded (ob_items o))
  end.

(** The keys that are instances of [str] itself. *)
Definition exact_keys (h : heap) (entries : list (addr * addr)) : bool :=
  forallb (fun e => type_is (lookup h (fst e)) py_str) entries.

(** A row name that [html.escape] accepts, and what it makes of a key. *)
Definition escapable (h : heap) (k : rowkey) : bool :=
  match escape_key h k with
  | Ret _ => true
  | Raise _ => false
  end.

Definition escaped_name (h : heap) (key : rowkey) : string :=
  match escape_key h key with
  | Ret name => name
  | Raise _ => ""
  end.

Definition escapable_keys (h : heap) (entries : list (addr * addr)) : bool :=
  forallb (fun e => escapable h (fst e)) entries.

(** One row of the table, from the name as [html.escape] returned it,
    and the rows of a table. *)
Definition html_row (name fragment : string) : string :=
  "<tr><th>" ++ name ++ "<td><pre class=repr>" ++ fragment ++ "</pre>".

Definition html_table (rows : list (string * string)) : string :=
  match rows with
  | [] => "<tr><td><em>Nothing</em>"
  | _ => join nl (map (fun r => html_row (fst r) (snd r)) rows)
  end.

(** The rows that [dump_object] and [dump_locals] make of the entries
    of a mapping, and [dump_object] of the attributes that could be
    read, when the values render as [F] says; and the table of these
    rows when their names can be escaped. *)
Definition entry_items (F : addr -> string) (entries : list (addr * addr))
    : list (rowkey * string) :=
  map (fun e => (fst e, F (snd e))) entries.

Definition entry_table (h : heap) (F : addr -> string)
    (entries : list (addr * addr)) : string :=
  html_table (map (fun e => (escaped_name h (fst e), F (snd e))) entries).

(** An attribute that can be read, or that raises an instance of
    [Exception] when it is read. *)
Definition skippable (attr : addr * result addr) : bool :=
  raises_Exception (snd attr).

(* ------------------------------------------------------------------ *)
(** ** Auxiliary notions of the proofs *)

(** A computation that leaves the stack as it found it. *)
Definition keeps_stack {A : Type} (m : eng A) : Prop :=
  forall st r st', m st = Some (r, st') -> st' = st.

(** A computation that comes to an end on [st], and leaves it as it was. *)
Definition returns {A : Type} (m : eng A) (st : stack) : Prop :=
  exists r, m st = Some (r, st).

(** A computation that raises no instance of [Exception]. *)
Definition quiet {A : Type} (m : eng A) : Prop :=
  forall st e st', m st = Some (Raise e, st') -> exc_is_Exception e = false.

(** A computation that raises nothing but instances of [Exception]. *)
Definition loud {A : Type} (m : eng A) : Prop :=
  forall st e st', m st = Some (Raise e, st') -> exc_is_Exception e = true.

(** [m'] does what [m] does wherever [m] comes to an end. *)
Definition refines {A : Type} (m m' : eng A) : Prop :=
  forall st r, m st = Some r -> m' st = Some r.

(** What [dispatch_repr] does with an object whose class can be read:
    every test is the test of [type(obj)]. *)
Definition dispatch_by_type (decode : string -> string) (helper : addr)
    (h : heap) (self_repr : addr -> eng string) (obj : addr)
    (recursive : bool) : eng string :=
  let o := lookup h obj in
  if (obj =? helper)%nat then ret (span "help" ++ Helper_repr ++ "</span>")
  else if isinstance o py_int || isinstance o py_float || isinstance o py_complex
    then lift (number_repr h obj)
  else if isinstance o py_str || isinstance o py_bytes
    then lift (string_repr h obj 70)
  else if isinstance o py_Pattern then lift (regex_repr decode h obj)
  else if isinstance o py_list then list_repr h self_repr obj recursive
  else if isinstance o py_tuple then tuple_repr h self_repr obj recursive
  else if isinstance o py_set then set_repr h self_repr obj recursive
  else if isinstance o py_frozenset then frozenset_repr h self_repr obj recursive
  else if isinstance o py_dict then dict_repr h self_repr obj recursive 5
  else if isinstance o py_deque then deque_repr h self_repr obj recursive
  else lift (object_repr h obj).



(* ------------------------------------------------------------------ *)
(** ** Text lemmas *)

Lemma append_nil_r (s : string) : s ++ "" = s.
Proof. induction s as [|c s IH]; simpl; [reflexivity | now rewrite IH]. Qed.

Lemma append_assoc (a b c : string) : (a ++ b) ++ c = a ++ (b ++ c).
Proof. induction a as [|x a IH]; simpl; [reflexivity | now rewrite IH]. Qed.

Lemma has_markup_app (a b : string) :
  has_markup (a ++ b) = has_markup a || has_markup b.
Proof.
  induction a as [|x a IH]; simpl; [reflexivity|].
  rewrite IH. now rewrite orb_assoc.
Qed.

Lemma escape_char_clean (c : ascii) : has_markup (escape_char c) = false.
Proof.
  unfold escape_char.
  destruct (c =? "&")%char eqn:E1; [reflexivity|].
  destruct (c =? "<")%char eqn:E2; [reflexivity|].
  destruct (c =? ">")%char eqn:E3; [reflexivity|].
  destruct (c =? dquote)%char eqn:E4; [reflexivity|].
  destruct (c =? "'")%char eqn:E5; [reflexivity|].
  simpl. unfold markup_char. now rewrite E2, E3, E4, E5.
Qed.

(** [html.escape] leaves no markup character. *)
Lemma escape_clean (s : string) : has_markup (escape s) = false.
Proof.
  induction s as [|c s IH]; simpl; [reflexivity|].
  now rewrite has_markup_app, escape_char_clean, IH.
Qed.

Lemma join_empty_cons (x : string) (l : list string) :
  join "" (x :: l) = x ++ join "" l.
Proof.
  destruct l as [|y l]; simpl; [now rewrite append_nil_r | reflexivity].
Qed.



Lemma join_cons (sep x y : string) (l : list string) :
  join sep (x :: y :: l) = x ++ sep ++ join sep (y :: l).
Proof. reflexivity. Qed.

Lemma removelast_snoc {A : Type} (l : list A) (x : A) : removelast (snoc l x) = l.
Proof. unfold snoc. apply removelast_last. Qed.

Lemma substring_all (s : string) : substring 0 (String.length s) s = s.
Proof. induction s as [|c s IH]; simpl; [reflexivity | now rewrite IH]. Qed.

Lemma substring_split (n : nat) (s : string) :
  n <= String.length s ->
  substring 0 n s ++ substring n (String.length s - n) s = s
  /\ String.length (substring 0 n s) = n.
Proof.
  revert s. induction n as [|n IH]; intros s Hn.
  - rewrite Nat.sub_0_r, substring_all. destruct s; simpl; auto.
  - destruct s as [|c s]; simpl in Hn; [lia|].
    simpl. destruct (IH s) as [H1 H2]; [lia|].
    rewrite H1, H2. auto.
Qed.

(* ------------------------------------------------------------------ *)
(** ** The buffer of the container renderers *)

Lemma join_cons_nonempty (sep x : string) (l : list string) :
  l <> [] -> join sep (x :: l) = x ++ sep ++ join sep l.
Proof. destruct l; [congruence | reflexivity]. Qed.

Lemma snoc_nonempty {A : Type} (l : list A) (x : A) : snoc l x <> [].
Proof. unfold snoc. destruct l; discriminate. Qed.







(* ------------------------------------------------------------------ *)
(** ** The stack discipline of the combinators *)

Ltac inv H := inversion H; subst; clear H.

Lemma keeps_ret {A : Type} (x : A) : keeps_stack (ret x).
Proof. intros st r st' H. inv H. reflexivity. Qed.

Lemma keeps_raise {A : Type} (e : exn) : keeps_stack (@raise A e).
Proof. intros st r st' H. inv H. reflexivity. Qed.

Lemma keeps_lift {A : Type} (x : result A) : keeps_stack (lift x).
Proof. intros st r st' H. inv H. reflexivity. Qed.

Lemma keeps_bind {A B : Type} (m : eng A) (k : A -> eng B) :
  keeps_stack m -> (forall x, keeps_stack (k x)) -> keeps_stack (bind m k).
Proof.
  intros Hm Hk st r st' H. unfold bind in H.
  destruct (m st) as [[[x|e] st1]|] eqn:E; [| |discriminate].
  - apply Hm in E. subst st1. eapply Hk; eassumption.
  - inv H. eapply Hm; eassumption.
Qed.

Lemma keeps_try_except {A : Type} (m : eng A) (handler : exn -> eng A) :
  keeps_stack m -> (forall e, keeps_stack (handler e)) ->
  keeps_stack (try_except m handler).
Proof.
  intros Hm Hh st r st' H. unfold try_except in H.
  destruct (m st) as [[[x|e] st1]|] eqn:E; [| |discriminate].
  - inv H. eapply Hm; eassumption.
  - apply Hm in E. subst st1.
    destruct (exc_is_Exception e).
    + eapply Hh; eassumption.
    + now inv H.
Qed.

Lemma keeps_finish (s : option exn) : keeps_stack (finish_iteration s).
Proof. destruct s; [apply keeps_raise | apply keeps_ret]. Qed.

Create HintDb keeps.
#[local] Hint Resolve keeps_ret keeps_raise keeps_lift keeps_finish : keeps.

Lemma returns_ret {A : Type} (x : A) (st : stack) : returns (ret x) st.
Proof. now exists (Ret x). Qed.

Lemma returns_raise {A : Type} (e : exn) (st : stack) : returns (@raise A e) st.
Proof. now exists (Raise e). Qed.

Lemma returns_lift {A : Type} (x : result A) (st : stack) : returns (lift x) st.
Proof. now exists x. Qed.

Lemma returns_bind {A B : Type} (m : eng A) (k : A -> eng B) (st : stack) :
  returns m st -> (forall x, returns (k x) st) -> returns (bind m k) st.
Proof.
  intros [r Hm] Hk. unfold returns, bind. rewrite Hm.
  destruct r as [x|e]; [apply Hk | now exists (Raise e)].
Qed.

Lemma returns_try_except {A : Type} (m : eng A) (handler : exn -> eng A)
    (st : stack) :
  returns m st -> (forall e, returns (handler e) st) ->
  returns (try_except m handler) st.
Proof.
  intros [r Hm] Hh. unfold returns, try_except. rewrite Hm.
  destruct r as [x|e]; [now exists (Ret x)|].
  destruct (exc_is_Exception e); [apply Hh | now exists (Raise e)].
Qed.

Lemma returns_finish (s : option exn) (st : stack) :
  returns (finish_iteration s) st.
Proof. destruct s; [apply returns_raise | apply returns_ret]. Qed.

Lemma loud_ret {A : Type} (x : A) : loud (ret x).
Proof. intros st e st' H. discriminate. Qed.

Lemma loud_lift {A : Type} (r : result A) :
  raises_Exception r = true -> loud (lift r).
Proof. intros Hr st e st' H. inv H. exact Hr. Qed.

Lemma loud_bind {A B : Type} (m : eng A) (k : A -> eng B) :
  loud m -> (forall x, loud (k x)) -> loud (bind m k).
Proof.
  intros Hm Hk st e st' H. unfold bind in H.
  destruct (m st) as [[[x|e1] st1]|] eqn:E; [| |discriminate].
  - eapply Hk; eassumption.
  - inv H. eapply Hm; eassumption.
Qed.

Lemma loud_finish (s : option exn) :
  stops_with_Exception s = true -> loud (finish_iteration s).
Proof.
  intros Hs st e st' H. destruct s as [e1|]; [|discriminate].
  inv H. exact Hs.
Qed.

Lemma loud_try_except {A : Type} (m : eng A) (handler : exn -> eng A) :
  loud m -> (forall e, loud (handler e)) -> loud (try_except m handler).
Proof.
  intros Hm Hh st e st' H. unfold try_except in H.
  destruct (m st) as [[[x|e1] st1]|] eqn:E; [discriminate| |discriminate].
  destruct (exc_is_Exception e1) eqn:E1.
  - eapply Hh; eassumption.
  - inv H. apply Hm in E. congruence.
Qed.

Lemma loud_try_finally {A : Type} (m : eng A) (cleanup : stack -> stack) :
  loud m -> loud (try_finally m cleanup).
Proof.
  intros Hm st e st' H. unfold try_finally in H.
  destruct (m st) as [[r st1]|] eqn:E; [|discriminate].
  inv H. eapply Hm; eassumption.
Qed.

Lemma bind_Ret_inv {A B : Type} (m : eng A) (k : A -> eng B)
    (st st' : stack) (y : B) :
  bind m k st = Some (Ret y, st') ->
  exists x st1, m st = Some (Ret x, st1) /\ k x st1 = Some (Ret y, st').
Proof.
  unfold bind. intros H.
  destruct (m st) as [[[x|e] st1]|]; [|discriminate|discriminate].
  now exists x, st1.
Qed.

(** *** The tests of the class *)

Lemma isinstance_call_yes (o : pyobj) (b : builtin) :
  isinstance o b = true -> isinstance_call o b = Ret true.
Proof. unfold isinstance_call. now intros ->. Qed.

Lemma isinstance_call_readable (o : pyobj) (b : builtin) :
  ob_class o = None -> isinstance_call o b = Ret (isinstance o b).
Proof.
  unfold isinstance_call. intros ->. now destruct (isinstance o b).
Qed.

Lemma isinstance_test_readable (o : pyobj) (b : builtin) :
  class_error o = None -> isinstance_test o b = Ret (isinstance o b).
Proof.
  unfold isinstance_test. intros ->. now destruct (isinstance o b).
Qed.

Lemma isinstance_any_readable (o : pyobj) (bases : list builtin) :
  class_error o = None ->
  isinstance_any o bases = Ret (existsb (isinstance o) bases).
Proof.
  intros Hc. induction bases as [|b rest IH]; [reflexivity|].
  simpl. rewrite (isinstance_test_readable _ _ Hc).
  destruct (isinstance o b); [reflexivity | exact IH].
Qed.

(** An object whose class cannot be read fails the first test. *)
Lemma isinstance_any_unreadable (o : pyobj) (e : exn) (b : builtin)
    (rest : list builtin) :
  class_error o = Some e -> b <> py_object ->
  isinstance_any o (b :: rest) = Raise e.
Proof.
  intros Hc Hb. simpl. unfold isinstance_test. rewrite Hc.
  unfold class_error in Hc.
  destruct (isinstance o py_object) eqn:E; [|discriminate].
  unfold isinstance, builtin_eqb in *. apply Nat.eqb_eq in E.
  destruct (ty_base (ob_type o)); try discriminate.
  destruct b; try reflexivity. congruence.
Qed.

Lemma if_isinstance_readable {A : Type} (o : pyobj) (bases : list builtin)
    (yes no : eng A) :
  class_error o = None ->
  if_isinstance o bases yes no
  = if existsb (isinstance o) bases then yes else no.
Proof.
  intros Hc. unfold if_isinstance.
  rewrite (isinstance_any_readable _ _ Hc). reflexivity.
Qed.

Lemma if_isinstance_unreadable {A : Type} (o : pyobj) (e : exn) (b : builtin)
    (rest : list builtin) (yes no : eng A) :
  class_error o = Some e -> b <> py_object ->
  if_isinstance o (b :: rest) yes no = raise e.
Proof.
  intros Hc Hb. unfold if_isinstance.
  rewrite (isinstance_any_unreadable _ _ _ _ Hc Hb). reflexivity.
Qed.

(** The two cases of [dispatch_repr_eq] below. *)
Ltac by_class :=
  match goal with
  | |- context [if (?obj =? ?helper)%nat then None else class_error ?o] =>
      destruct (if (obj =? helper)%nat then None else class_error o)
        as [?e|] eqn:?Hclass
  end.

(** *** Slices of a text that is long enough *)

Lemma slice_to_prefix (r : string) (limit : Z) :
  (0 <= limit <= Z.of_nat (String.length r))%Z ->
  slice_to r limit = substring 0 (Z.to_nat limit) r.
Proof.
  intros Hl. unfold slice_to, slice, slice_bound.
  replace (0 <? 0)%Z with false by reflexivity.
  replace (limit <? 0)%Z with false by (symmetry; apply Z.ltb_ge; lia).
  rewrite Z.min_l by lia. rewrite Z.min_l by lia.
  now rewrite Z.sub_0_r.
Qed.

Lemma slice_from_suffix (r : string) (limit : Z) :
  (0 <= limit <= Z.of_nat (String.length r))%Z ->
  slice_from r limit
  = substring (Z.to_nat limit) (String.length r - Z.to_nat limit) r.
Proof.
  intros Hl. unfold slice_from, slice, slice_bound.
  replace (limit <? 0)%Z with false by (symmetry; apply Z.ltb_ge; lia).
  replace (Z.of_nat (String.length r) <? 0)%Z with false
    by (symmetry; apply Z.ltb_ge; lia).
  rewrite Z.min_l by lia. rewrite Z.min_id.
  f_equal. lia.
Qed.

Section Properties.

Variable unicode_escape_decode : string -> string.
Variable helper : addr.
Variable h : heap.

Notation repr := (DebugReprGenerator.repr unicode_escape_decode helper h).
Notation dispatch_repr :=
  (DebugReprGenerator.dispatch_repr unicode_escape_decode helper h).
Notation dump_object :=
  (DebugReprGenerator.dump_object unicode_escape_decode helper h).
Notation dump_locals :=
  (DebugReprGenerator.dump_locals unicode_escape_decode helper h).

(** *** Loops keep the stack *)

Lemma sequence_loop_keeps (self_repr : addr -> eng string) limit :
  (forall x, keeps_stack (self_repr x)) ->
  forall items idx buf have,
    keeps_stack (sequence_loop self_repr limit idx items buf have).
Proof.
  intros Hs items. induction items as [|item rest IH]; intros idx buf have.
  - apply keeps_ret.
  - simpl. apply keeps_bind; [apply Hs|]. intros f. apply IH.
Qed.

Lemma dict_loop_keeps (self_repr : addr -> eng string) limit :
  (forall x, keeps_stack (self_repr x)) ->
  forall entries idx buf have,
    keeps_stack (dict_loop self_repr limit idx entries buf have).
Proof.
  intros Hs entries. induction entries as [|[key value] rest IH];
    intros idx buf have.
  - apply keeps_ret.
  - simpl. apply keeps_bind; [apply Hs|]. intros k.
    apply keeps_bind; [apply Hs|]. intros v. apply IH.
Qed.

Lemma sequence_repr_keeps (self_repr : addr -> eng string)
    opening closing base limit obj recursive :
  (forall x, keeps_stack (self_repr x)) ->
  keeps_stack
    (_sequence_repr_maker h opening closing base limit self_repr obj recursive).
Proof.
  intros Hs. unfold _sequence_repr_maker.
  destruct recursive; [apply keeps_ret|].
  apply keeps_bind; [now apply sequence_loop_keeps|]. intros r.
  apply keeps_bind; [apply keeps_finish|]. intros _. apply keeps_ret.
Qed.

Lemma dict_repr_keeps (self_repr : addr -> eng string) d recursive limit :
  (forall x, keeps_stack (self_repr x)) ->
  keeps_stack (dict_repr h self_repr d recursive limit).
Proof.
  intros Hs. unfold dict_repr.
  destruct recursive; [apply keeps_ret|].
  apply keeps_bind; [now apply dict_loop_keeps|]. intros r.
  apply keeps_bind; [apply keeps_finish|]. intros _. apply keeps_ret.
Qed.

(** Every test of [dispatch_repr] is the test of the type, unless the
    class of the object cannot be read: then the first test raises. *)
Lemma dispatch_repr_eq (self_repr : addr -> eng string) obj recursive :
  dispatch_repr self_repr obj recursive
  = match (if (obj =? helper)%nat then None else class_error (lookup h obj)) with
    | Some e => raise e
    | None =>
        dispatch_by_type unicode_escape_decode helper h self_repr obj recursive
    end.
Proof.
  unfold DebugReprGenerator.dispatch_repr, dispatch_by_type.
  destruct (obj =? helper)%nat; [reflexivity|].
  destruct (class_error (lookup h obj)) as [e|] eqn:Hc.
  - now apply if_isinstance_unreadable.
  - rewrite !(if_isinstance_readable _ _ _ _ Hc). simpl.
    rewrite !orb_false_r, !orb_assoc. reflexivity.
Qed.

Lemma dispatch_by_type_keeps (self_repr : addr -> eng string) obj recursive :
  (forall x, keeps_stack (self_repr x)) ->
  keeps_stack
    (dispatch_by_type unicode_escape_decode helper h self_repr obj recursive).
Proof.
  intros Hs. unfold dispatch_by_type.
  repeat match goal with
         | |- keeps_stack (if ?c then _ else _) => destruct c
         end;
    auto with keeps;
    solve [ now apply sequence_repr_keeps | now apply dict_repr_keeps ].
Qed.

Lemma dispatch_keeps (self_repr : addr -> eng string) obj recursive :
  (forall x, keeps_stack (self_repr x)) ->
  keeps_stack (dispatch_repr self_repr obj recursive).
Proof.
  intros Hs. rewrite dispatch_repr_eq.
  destruct (if (obj =? helper)%nat then None else class_error (lookup h obj));
    [apply keeps_raise | now apply dispatch_by_type_keeps].
Qed.

(** Whatever the outcome, [repr] hands the stack back as it got it. *)
Lemma repr_keeps (fuel : nat) (obj : addr) : keeps_stack (repr fuel obj).
Proof.
  revert obj. induction fuel as [|fuel IH]; intros obj st r st' H.
  - discriminate.
  - simpl in H. unfold try_finally in H.
    match type of H with
    | match ?m ?s with _ => _ end = _ => destruct (m s) as [[r1 st1]|] eqn:E
    end; [|discriminate].
    inv H.
    apply keeps_try_except in E.
    + subst st1. apply removelast_snoc.
    + now apply dispatch_keeps.
    + intros e. apply keeps_ret.
Qed.

(** *** Loops come to an end *)

Lemma sequence_loop_returns (self_repr : addr -> eng string) limit st :
  (forall x, returns (self_repr x) st) ->
  forall items idx buf have,
    returns (sequence_loop self_repr limit idx items buf have) st.
Proof.
  intros Hs items. induction items as [|item rest IH]; intros idx buf have.
  - apply returns_ret.
  - simpl. apply returns_bind; [apply Hs|]. intros f. apply IH.
Qed.

Lemma dict_loop_returns (self_repr : addr -> eng string) limit st :
  (forall x, returns (self_repr x) st) ->
  forall entries idx buf have,
    returns (dict_loop self_repr limit idx entries buf have) st.
Proof.
  intros Hs entries. induction entries as [|[key value] rest IH];
    intros idx buf have.
  - apply returns_ret.
  - simpl. apply returns_bind; [apply Hs|]. intros k.
    apply returns_bind; [apply Hs|]. intros v. apply IH.
Qed.

Lemma sequence_repr_returns (self_repr : addr -> eng string)
    opening closing base limit obj recursive st :
  (recursive = false -> forall x, returns (self_repr x) st) ->
  returns
    (_sequence_repr_maker h opening closing base limit self_repr obj recursive) st.
Proof.
  intros Hs. unfold _sequence_repr_maker.
  destruct recursive; [apply returns_ret|].
  apply returns_bind; [now apply sequence_loop_returns; auto|]. intros r.
  apply returns_bind; [apply returns_finish|]. intros _. apply returns_ret.
Qed.

Lemma dict_repr_returns (self_repr : addr -> eng string) d recursive limit st :
  (recursive = false -> forall x, returns (self_repr x) st) ->
  returns (dict_repr h self_repr d recursive limit) st.
Proof.
  intros Hs. unfold dict_repr.
  destruct recursive; [apply returns_ret|].
  apply returns_bind; [now apply dict_loop_returns; auto|]. intros r.
  apply returns_bind; [apply returns_finish|]. intros _. apply returns_ret.
Qed.

(** Only the renderer of a container that is not met again calls
    [self.repr]. *)
Lemma dispatch_returns (self_repr : addr -> eng string) obj recursive st :
  (recursive = false -> is_container (lookup h obj) = true ->
   forall x, returns (self_repr x) st) ->
  returns (dispatch_repr self_repr obj recursive) st.
Proof.
  intros Hs. rewrite dispatch_repr_eq. by_class; [apply returns_raise|].
  unfold dispatch_by_type.
  destruct (obj =? helper)%nat; [apply returns_ret|].
  destruct (isinstance (lookup h obj) py_int || isinstance (lookup h obj) py_float
            || isinstance (lookup h obj) py_complex); [apply returns_lift|].
  destruct (isinstance (lookup h obj) py_str || isinstance (lookup h obj) py_bytes);
    [apply returns_lift|].
  destruct (isinstance (lookup h obj) py_Pattern); [apply returns_lift|].
  unfold is_container in Hs.
  destruct (isinstance (lookup h obj) py_list);
    [apply sequence_repr_returns; auto|].
  destruct (isinstance (lookup h obj) py_tuple);
    [apply sequence_repr_returns; auto|].
  destruct (isinstance (lookup h obj) py_set);
    [apply sequence_repr_returns; auto|].
  destruct (isinstance (lookup h obj) py_frozenset);
    [apply sequence_repr_returns; auto|].
  destruct (isinstance (lookup h obj) py_dict);
    [apply dict_repr_returns; auto|].
  destruct (isinstance (lookup h obj) py_deque);
    [apply sequence_repr_returns; auto|].
  apply returns_lift.
Qed.

(** *** The measure of the recursion *)

Lemma on_stack_snoc (x a : addr) (st : stack) :
  on_stack x (snoc st a) = on_stack x st || (x =? a)%nat.
Proof.
  unfold on_stack, snoc. rewrite existsb_app. simpl. now rewrite orb_false_r.
Qed.


Lemma filter_shrinks {A : Type} (f g : A -> bool) (a : A) (l : list A) :
  (forall x, g x = true -> f x = true) ->
  In a l -> f a = true -> g a = false ->
  length (filter g l) < length (filter f l).
Proof.
  intros Hgf. induction l as [|x l IH]; intros Hin Hf Hg; [contradiction|].
  assert (Hle : length (filter g l) <= length (filter f l)).
  { clear IH Hin. induction l as [|y l IHl]; simpl; [lia|].
    destruct (g y) eqn:Eg.
    - rewrite (Hgf y Eg). simpl. lia.
    - destruct (f y); simpl; lia. }
  destruct Hin as [->|Hin].
  - simpl. rewrite Hf, Hg. simpl. lia.
  - specialize (IH Hin Hf Hg). simpl.
    destruct (g x) eqn:Eg.
    + rewrite (Hgf x Eg). simpl. lia.
    + destruct (f x); simpl; lia.
Qed.

Lemma container_in_heap (a : addr) :
  is_container (lookup h a) = true -> a < length h.
Proof.
  intros H. destruct (Nat.lt_ge_cases a (length h)) as [Hlt|Hge]; [assumption|].
  unfold lookup in H. rewrite nth_overflow in H by assumption. discriminate.
Qed.

(** Entering a container that is not on the stack uses up one object. *)
Lemma unvisited_push (a : addr) (st : stack) :
  is_container (lookup h a) = true -> on_stack a st = false ->
  unvisited h (snoc st a) < unvisited h st.
Proof.
  intros Hc Hs. unfold unvisited.
  apply filter_shrinks with (a := a).
  - intros x Hx. rewrite on_stack_snoc in Hx.
    destruct (on_stack x st); [discriminate | reflexivity].
  - apply in_seq. apply container_in_heap in Hc. lia.
  - now rewrite Hs.
  - rewrite on_stack_snoc, Nat.eqb_refl, orb_true_r. reflexivity.
Qed.

(** [repr] comes to an end, and hands the stack back, as soon as the
    budget exceeds the number of objects not yet on the stack. *)
Lemma repr_returns (fuel : nat) :
  forall obj st, unvisited h st < fuel -> returns (repr fuel obj) st.
Proof.
  induction fuel as [|fuel IH]; intros obj st Hfuel; [lia|].
  assert (Hd : returns (dispatch_repr (repr fuel) obj (on_stack obj st))
                 (snoc st obj)).
  { apply dispatch_returns. intros Hrec Hc x. apply IH.
    pose proof (unvisited_push obj st Hc Hrec). lia. }
  destruct Hd as [r Hd]. unfold returns. simpl.
  unfold try_finally, try_except. rewrite Hd.
  destruct r as [f|e].
  - exists (Ret f). now rewrite removelast_snoc.
  - destruct (exc_is_Exception e).
    + eexists. unfold ret. now rewrite removelast_snoc.
    + exists (Raise e). now rewrite removelast_snoc.
Qed.

(** *** No instance of [Exception] leaves [repr] *)

Lemma repr_quiet (fuel : nat) (obj : addr) : quiet (repr fuel obj).
Proof.
  intros st e st' H. destruct fuel as [|fuel]; [discriminate|].
  simpl in H. unfold try_finally, try_except in H.
  destruct (dispatch_repr (repr fuel) obj (on_stack obj st) (snoc st obj))
    as [[[f|e1] st1]|]; try discriminate.
  destruct (exc_is_Exception e1) eqn:E.
  - discriminate.
  - inv H. assumption.
Qed.

(** *** A larger budget changes no outcome *)

Lemma refines_refl {A : Type} (m : eng A) : refines m m.
Proof. intros st r H. exact H. Qed.

Lemma refines_bind {A B : Type} (m m' : eng A) (k k' : A -> eng B) :
  refines m m' -> (forall x, refines (k x) (k' x)) ->
  refines (bind m k) (bind m' k').
Proof.
  intros Hm Hk st r H. unfold bind in *.
  destruct (m st) as [[[x|e] st1]|] eqn:E; [| |discriminate];
    rewrite (Hm _ _ E); [now apply Hk | assumption].
Qed.

Lemma refines_try_except {A : Type} (m m' : eng A) (handler : exn -> eng A) :
  refines m m' -> refines (try_except m handler) (try_except m' handler).
Proof.
  intros Hm st r H. unfold try_except in *.
  destruct (m st) as [[[x|e] st1]|] eqn:E; [| |discriminate];
    now rewrite (Hm _ _ E).
Qed.

Lemma refines_try_finally {A : Type} (m m' : eng A) (cleanup : stack -> stack) :
  refines m m' -> refines (try_finally m cleanup) (try_finally m' cleanup).
Proof.
  intros Hm st r H. unfold try_finally in *.
  destruct (m st) as [[x st1]|] eqn:E; [|discriminate].
  now rewrite (Hm _ _ E).
Qed.

Lemma sequence_loop_refines (f g : addr -> eng string) limit :
  (forall x, refines (f x) (g x)) ->
  forall items idx buf have,
    refines (sequence_loop f limit idx items buf have)
            (sequence_loop g limit idx items buf have).
Proof.
  intros Hfg items. induction items as [|item rest IH]; intros idx buf have.
  - apply refines_refl.
  - simpl. apply refines_bind; [apply Hfg|]. intros x. apply IH.
Qed.

Lemma dict_loop_refines (f g : addr -> eng string) limit :
  (forall x, refines (f x) (g x)) ->
  forall entries idx buf have,
    refines (dict_loop f limit idx entries buf have)
            (dict_loop g limit idx entries buf have).
Proof.
  intros Hfg entries. induction entries as [|[key value] rest IH];
    intros idx buf have.
  - apply refines_refl.
  - simpl. apply refines_bind; [apply Hfg|]. intros k.
    apply refines_bind; [apply Hfg|]. intros v. apply IH.
Qed.

Lemma sequence_repr_refines (f g : addr -> eng string)
    opening closing base limit obj recursive :
  (forall x, refines (f x) (g x)) ->
  refines (_sequence_repr_maker h opening closing base limit f obj recursive)
          (_sequence_repr_maker h opening closing base limit g obj recursive).
Proof.
  intros Hfg. unfold _sequence_repr_maker.
  destruct recursive; [apply refines_refl|].
  apply refines_bind; [now apply sequence_loop_refines|].
  intros r. apply refines_refl.
Qed.

Lemma dict_repr_refines (f g : addr -> eng string) d recursive limit :
  (forall x, refines (f x) (g x)) ->
  refines (dict_repr h f d recursive limit) (dict_repr h g d recursive limit).
Proof.
  intros Hfg. unfold dict_repr.
  destruct recursive; [apply refines_refl|].
  apply refines_bind; [now apply dict_loop_refines|].
  intros r. apply refines_refl.
Qed.

Lemma dispatch_refines (f g : addr -> eng string) obj recursive :
  (forall x, refines (f x) (g x)) ->
  refines (dispatch_repr f obj recursive) (dispatch_repr g obj recursive).
Proof.
  intros Hfg. rewrite !dispatch_repr_eq. by_class; [apply refines_refl|].
  unfold dispatch_by_type.
  repeat match goal with
         | |- refines (if ?c then _ else _) _ => destruct c
         end;
    solve [ apply refines_refl
          | now apply sequence_repr_refines
          | now apply dict_repr_refines ].
Qed.

Lemma repr_step (fuel : nat) (obj : addr) : refines (repr fuel obj) (repr (S fuel) obj).
Proof.
  revert obj. induction fuel as [|fuel IH]; intros obj.
  - intros st r H. discriminate.
  - intros st r H. change (repr (S fuel) obj st) with
      (try_finally
         (try_except (dispatch_repr (repr fuel) obj (on_stack obj st))
            (fun e => ret (fallback_repr e)))
         (@removelast addr) (snoc st obj)) in H.
    change (repr (S (S fuel)) obj st) with
      (try_finally
         (try_except (dispatch_repr (repr (S fuel)) obj (on_stack obj st))
            (fun e => ret (fallback_repr e)))
         (@removelast addr) (snoc st obj)).
    revert H. apply refines_try_finally, refines_try_except, dispatch_refines.
    exact IH.
Qed.

(** Once [repr] has come to an end, more budget gives the same outcome. *)
Lemma repr_stable (fuel fuel' : nat) (obj : addr) :
  fuel <= fuel' -> refines (repr fuel obj) (repr fuel' obj).
Proof.
  induction 1 as [|m Hle IH]; [apply refines_refl|].
  intros st r H. apply repr_step. now apply IH.
Qed.

(** *** The renderers of the containers *)











(** *** Element limits *)


(** *** Objects that raise only instances of [Exception] *)

Lemma tame_lookup (a : addr) : tame_heap h = true -> tame (lookup h a) = true.
Proof.
  intros Ht. unfold lookup.
  destruct (nth_in_or_default a h py_None) as [Hin|Hd].
  - unfold tame_heap in Ht. rewrite forallb_forall in Ht. now apply Ht.
  - rewrite Hd. reflexivity.
Qed.

Lemma tame_fields (o : pyobj) :
  tame o = true ->
  raises_Exception (ob_repr o) = true
  /\ stops_with_Exception (stop (ob_iter o)) = true
  /\ stops_with_Exception (stop (ob_items o)) = true
  /\ match ob_dir o with
     | Ret names => forallb (fun n => raises_Exception (snd n)) names
     | Raise e => exc_is_Exception e
     end = true.
Proof.
  unfold tame. rewrite !andb_true_iff. tauto.
Qed.

Lemma tame_ob_class (o : pyobj) :
  tame o = true -> stops_with_Exception (ob_class o) = true.
Proof.
  unfold tame. rewrite !andb_true_iff. tauto.
Qed.

Lemma tame_class (o : pyobj) :
  tame o = true -> stops_with_Exception (class_error o) = true.
Proof.
  intros Ht. unfold class_error.
  destruct (isinstance o py_object); [now apply tame_ob_class | reflexivity].
Qed.

Lemma sequence_loop_loud (self_repr : addr -> eng string) limit :
  (forall x, loud (self_repr x)) ->
  forall items idx buf have,
    loud (sequence_loop self_repr limit idx items buf have).
Proof.
  intros Hs items. induction items as [|item rest IH]; intros idx buf have.
  - apply loud_ret.
  - simpl. apply loud_bind; [apply Hs|]. intros f. apply IH.
Qed.

Lemma dict_loop_loud (self_repr : addr -> eng string) limit :
  (forall x, loud (self_repr x)) ->
  forall entries idx buf have,
    loud (dict_loop self_repr limit idx entries buf have).
Proof.
  intros Hs entries. induction entries as [|[key value] rest IH];
    intros idx buf have.
  - apply loud_ret.
  - simpl. apply loud_bind; [apply Hs|]. intros k.
    apply loud_bind; [apply Hs|]. intros v. apply IH.
Qed.

Lemma sequence_repr_loud (self_repr : addr -> eng string)
    opening closing base limit obj recursive :
  tame_heap h = true ->
  (forall x, loud (self_repr x)) ->
  loud (_sequence_repr_maker h opening closing base limit self_repr obj recursive).
Proof.
  intros Ht Hs. unfold _sequence_repr_maker.
  destruct recursive; [apply loud_ret|].
  apply loud_bind; [now apply sequence_loop_loud|]. intros r.
  apply loud_bind; [|intros _; apply loud_ret].
  apply loud_finish. now apply (tame_fields _ (tame_lookup obj Ht)).
Qed.

Lemma dict_repr_loud (self_repr : addr -> eng string) d recursive limit :
  tame_heap h = true ->
  (forall x, loud (self_repr x)) ->
  loud (dict_repr h self_repr d recursive limit).
Proof.
  intros Ht Hs. unfold dict_repr.
  destruct recursive; [apply loud_ret|].
  apply loud_bind; [now apply dict_loop_loud|]. intros r.
  apply loud_bind; [|intros _; apply loud_ret].
  apply loud_finish. now apply (tame_fields _ (tame_lookup d Ht)).
Qed.

Lemma looks_like_string_loud (r : string) :
  raises_Exception (looks_like_string r) = true.
Proof.
  unfold looks_like_string, index.
  destruct (get 0 r) as [c0|]; [|reflexivity].
  destruct (is_quote c0); [reflexivity|].
  destruct (c0 =? "b")%char; [|reflexivity].
  destruct (get 1 r); reflexivity.
Qed.

Lemma scalar_reprs_loud (obj : addr) :
  tame_heap h = true ->
  raises_Exception (number_repr h obj) = true
  /\ raises_Exception (string_repr h obj 70) = true
  /\ raises_Exception (regex_repr unicode_escape_decode h obj) = true
  /\ raises_Exception (object_repr h obj) = true.
Proof.
  intros Ht.
  pose proof (proj1 (tame_fields _ (tame_lookup obj Ht))) as Ho.
  pose proof (proj1 (tame_fields _
                (tame_lookup (ob_pattern (lookup h obj)) Ht))) as Hp.
  unfold number_repr, string_repr, regex_repr, object_repr.
  repeat split.
  - destruct (ob_repr (lookup h obj)); assumption.
  - destruct (ob_repr (lookup h obj)) as [r|e]; [|assumption].
    pose proof (looks_like_string_loud r) as Hl.
    destruct (looks_like_string r) as [[|]|e]; assumption || reflexivity.
  - destruct (ob_repr (lookup h (ob_pattern (lookup h obj)))); assumption.
  - destruct (ob_repr (lookup h obj)); assumption.
Qed.

Lemma dispatch_loud (self_repr : addr -> eng string) obj recursive :
  tame_heap h = true ->
  (forall x, loud (self_repr x)) ->
  loud (dispatch_repr self_repr obj recursive).
Proof.
  intros Ht Hs. rewrite dispatch_repr_eq. by_class.
  { destruct (obj =? helper)%nat; [discriminate|].
    pose proof (tame_class _ (tame_lookup obj Ht)) as Hc.
    rewrite Hclass in Hc. now apply (loud_lift (Raise e)). }
  unfold dispatch_by_type.
  destruct (scalar_reprs_loud obj Ht) as (Hn & Hstr & Hre & Hob).
  repeat match goal with
         | |- loud (if ?c then _ else _) => destruct c
         end;
    solve [ apply loud_ret
          | now apply loud_lift
          | now apply sequence_repr_loud
          | now apply dict_repr_loud ].
Qed.

Lemma repr_loud (fuel : nat) :
  tame_heap h = true -> forall obj, loud (repr fuel obj).
Proof.
  intros Ht. induction fuel as [|fuel IH]; intros obj st e st' H.
  - discriminate.
  - revert H. simpl. apply loud_try_finally, loud_try_except.
    + now apply dispatch_loud.
    + intros e1. apply loud_ret.
Qed.

(** Among tame objects [repr] always returns a fragment. *)
Lemma repr_fragment (fuel : nat) (obj : addr) (st : stack) :
  tame_heap h = true -> unvisited h st < fuel ->
  repr fuel obj st = Some (Ret (fragment_of (repr fuel obj st)), st).
Proof.
  intros Ht Hf. destruct (repr_returns fuel obj st Hf) as [[f|e] Hr].
  - now rewrite Hr.
  - pose proof (repr_quiet _ _ _ _ _ Hr) as Hq.
    pose proof (repr_loud _ Ht _ _ _ _ Hr) as Hl. congruence.
Qed.

(** *** The object dump *)

Lemma repr_or_empty_Some (s : string) : repr_or_empty (Some s) = s.
Proof. destruct s; reflexivity. Qed.

(** [OBJECT_DUMP_HTML % {...}] *)
Lemma object_dump_template (title block items : string) :
  percent_format OBJECT_DUMP_HTML
    [("title", title); ("repr", block); ("items", items)]
  = Some ("<div class=box>" ++ nl ++
          "  <h3>" ++ title ++ "</h3>" ++ nl ++
          "  " ++ block ++ nl ++
          "  <table>" ++ items ++ "</table>" ++ nl ++
          "</div>").
Proof. reflexivity. Qed.

Lemma html_rows_escaped (items : list (rowkey * string)) :
  forall (rows : list (string * string)) (acc : list string),
    Forall2 (fun it row => escape_key h (fst it) = Ret (fst row)
                           /\ snd it = snd row) items rows ->
    html_rows h items acc
    = Ret (acc ++ map (fun r => html_row (fst r) (snd r)) rows)%list.
Proof.
  induction items as [|[key value] rest IH]; intros rows acc HF; inv HF.
  - simpl. now rewrite app_nil_r.
  - destruct H1 as [Hk Hv]. simpl in Hk, Hv. subst value.
    simpl. rewrite Hk. rewrite (IH _ _ H3). unfold snoc.
    rewrite <- app_assoc. reflexivity.
Qed.

(** The first row name that cannot be escaped makes [html_rows] raise. *)
Lemma html_rows_bad_key (pre post : list (rowkey * string)) (k : rowkey)
    (v : string) (e : exn) :
  forallb (fun it => escapable h (fst it)) pre = true ->
  escape_key h k = Raise e ->
  forall acc, html_rows h (pre ++ (k, v) :: post) acc = Raise e.
Proof.
  intros Hpre Hk. induction pre as [|[k0 v0] pre IH]; intros acc.
  - simpl. now rewrite Hk.
  - simpl in Hpre. apply andb_true_iff in Hpre. destruct Hpre as [H0 Hpre].
    simpl. unfold escapable in H0.
    destruct (escape_key h k0); [|discriminate]. now apply IH.
Qed.

Lemma render_object_dump_escaped (items : list (rowkey * string))
    (rows : list (string * string)) (title : string) (top : option string) :
  html_rows h items [] = Ret (map (fun r => html_row (fst r) (snd r)) rows) ->
  render_object_dump h items title top
  = Ret (dump_page (escape title) (repr_or_empty top) (html_table rows)).
Proof.
  intros H. unfold render_object_dump. rewrite H, object_dump_template.
  unfold dump_page. f_equal. simpl. rewrite !append_assoc.
  destruct rows as [|r rows]; reflexivity.
Qed.

Lemma render_object_dump_bad_key (pre post : list (rowkey * string))
    (k : rowkey) (v title : string) (top : option string) (e : exn) :
  forallb (fun it => escapable h (fst it)) pre = true ->
  escape_key h k = Raise e ->
  render_object_dump h (pre ++ (k, v) :: post) title top = Raise e.
Proof.
  intros Hpre Hk. unfold render_object_dump.
  now rewrite (html_rows_bad_key pre post k v e Hpre Hk).
Qed.

(** A failed test [forallb] splits the list at the first failure. *)
Lemma forallb_false_split {A : Type} (f : A -> bool) (l : list A) :
  forallb f l = false ->
  exists pre x post,
    l = (pre ++ x :: post)%list /\ forallb f pre = true /\ f x = false.
Proof.
  induction l as [|x l IH]; [discriminate|].
  simpl. destruct (f x) eqn:E.
  - intros H. destruct (IH H) as (pre & y & post & -> & Hpre & Hy).
    exists (x :: pre), y, post. simpl. rewrite E. now repeat split.
  - intros _. exists [], x, l. now repeat split.
Qed.

Lemma type_is_isinstance (o : pyobj) (b : builtin) :
  type_is o b = true -> isinstance o b = true.
Proof. unfold type_is. intros H. now apply andb_true_iff in H. Qed.

Lemma text_keys_isinstance (entries : list (addr * addr)) :
  forallb (fun e => isinstance (lookup h (fst e)) py_str) entries = true ->
  text_keys h entries = Ret true.
Proof.
  induction entries as [|[key value] rest IH]; [reflexivity|].
  simpl. intros H. apply andb_true_iff in H. destruct H as [Hk Hrest].
  rewrite (isinstance_call_yes _ _ Hk). now apply IH.
Qed.

Lemma exact_keys_isinstance (entries : list (addr * addr)) :
  exact_keys h entries = true ->
  forallb (fun e => isinstance (lookup h (fst e)) py_str) entries = true.
Proof.
  unfold exact_keys. rewrite !forallb_forall. intros H e He.
  apply type_is_isinstance. now apply H.
Qed.

(** The first loop of [dump_object] when the values render as [F] says. *)
Lemma contents_loop_outcome (self_repr : addr -> eng string) (st : stack)
    (F : addr -> string) :
  (forall x, self_repr x st = Some (Ret (F x), st)) ->
  forall entries items,
    contents_loop h self_repr entries items st
    = Some (match text_keys h entries with
            | Ret true => Ret (Some (items ++ entry_items F entries)%list)
            | Ret false => Ret None
            | Raise e => Raise e
            end, st).
Proof.
  intros Hs entries. induction entries as [|[key value] rest IH]; intros items.
  - simpl. now rewrite app_nil_r.
  - simpl. unfold bind at 1, lift.
    destruct (isinstance_call (lookup h key) py_str) as [[|]|e];
      [|reflexivity|reflexivity].
    simpl. unfold bind. rewrite Hs, IH.
    destruct (text_keys h rest) as [[|]|e]; try reflexivity.
    unfold snoc. now rewrite <- app_assoc.
Qed.

(** The second loop, when every attribute can be skipped. *)
Lemma details_loop_readable (self_repr : addr -> eng string) (st : stack)
    (F : addr -> string) :
  (forall x, self_repr x st = Some (Ret (F x), st)) ->
  forall names items,
    forallb skippable names = true ->
    details_loop self_repr names items st
    = Some (Ret (items ++ entry_items F (readable names))%list, st).
Proof.
  intros Hs names. unfold entry_items, skippable.
  induction names as [|[key [v|e]] rest IH]; intros items Hn.
  - simpl. now rewrite app_nil_r.
  - simpl in Hn. simpl. unfold bind, try_except, lift. rewrite Hs. simpl.
    rewrite (IH _ Hn). unfold snoc. now rewrite <- app_assoc.
  - simpl in Hn. apply andb_true_iff in Hn. destruct Hn as [He Hn].
    simpl. unfold bind, try_except, lift. rewrite He. simpl.
    now rewrite (IH _ Hn).
Qed.

(** The second loop up to an attribute that raises an exception which
    is no instance of [Exception]. *)
Lemma details_loop_interrupt (self_repr : addr -> eng string) (st : stack)
    (name : addr) (e : exn) (post : list (addr * result addr)) :
  exc_is_Exception e = false ->
  forall pre items,
    Forall (fun n => match snd n with
                     | Ret v => exists f, self_repr v st = Some (Ret f, st)
                     | Raise e' => exc_is_Exception e' = true
                     end) pre ->
    details_loop self_repr (pre ++ (name, Raise e) :: post) items st
    = Some (Raise e, st).
Proof.
  intros He pre. induction pre as [|[key [v|e']] pre IH]; intros items Hpre.
  - simpl. unfold bind, try_except, lift. now rewrite He.
  - inv Hpre. destruct H1 as [f Hf]. simpl in Hf.
    simpl. unfold bind, try_except, lift. rewrite Hf. simpl.
    now apply IH.
  - inv Hpre. simpl in H1.
    simpl. unfold bind, try_except, lift. rewrite H1. simpl.
    now apply IH.
Qed.

Lemma locals_loop_rows (self_repr : addr -> eng string) (st : stack)
    (F : addr -> string) :
  (forall x, self_repr x st = Some (Ret (F x), st)) ->
  forall entries items,
    locals_loop self_repr entries items st
    = Some (Ret (items ++ entry_items F entries)%list, st).
Proof.
  intros Hs entries. induction entries as [|[key value] rest IH]; intros items.
  - simpl. now rewrite app_nil_r.
  - simpl. unfold bind. rewrite Hs, IH. unfold snoc.
    now rewrite <- app_assoc.
Qed.

(** What [dump_object] does when the values render as [F] says and the
    attributes can be skipped: the tests of the class and of the keys
    choose the table, and an error of these tests, of the iteration or
    of [dir] takes its place. *)
Lemma dump_object_outcome (fuel : nat) (obj : addr) (st : stack)
    (F : addr -> string) :
  (forall x, repr fuel x st = Some (Ret (F x), st)) ->
  (forall names, shows_contents h (lookup h obj) = Ret false ->
                 ob_dir (lookup h obj) = Ret names ->
                 forallb skippable names = true) ->
  dump_object fuel obj st
  = Some (match shows_contents h (lookup h obj) with
          | Raise e => Raise e
          | Ret true =>
              match stop (ob_items (lookup h obj)) with
              | Some e => Raise e
              | None =>
                  render_object_dump h
                    (entry_items F (yielded (ob_items (lookup h obj))))
                    ("Contents of " ++ identity_descriptor (lookup h obj)) None
              end
          | Ret false =>
              match ob_dir (lookup h obj) with
              | Raise e => Raise e
              | Ret names =>
                  render_object_dump h (entry_items F (readable names))
                    ("Details for " ++ identity_descriptor (lookup h obj))
                    (Some (F obj))
              end
          end, st).
Proof.
  intros HF Hn. revert Hn.
  unfold DebugReprGenerator.dump_object, shows_contents, bind, lift, ret.
  destruct (isinstance_call (lookup h obj) py_dict) as [[|]|e];
    cbv beta iota zeta; intros Hn; [| |reflexivity].
  - rewrite (contents_loop_outcome _ _ F HF). simpl app.
    destruct (text_keys h (yielded (ob_items (lookup h obj)))) as [[|]|e];
      cbv beta iota zeta; [| |reflexivity].
    + destruct (stop (ob_items (lookup h obj))) as [e|]; reflexivity.
    + rewrite HF.
      destruct (ob_dir (lookup h obj)) as [names|e]; [|reflexivity].
      rewrite (details_loop_readable _ _ F HF _ _ (Hn names eq_refl eq_refl)).
      reflexivity.
  - rewrite HF.
    destruct (ob_dir (lookup h obj)) as [names|e]; [|reflexivity].
    rewrite (details_loop_readable _ _ F HF _ _ (Hn names eq_refl eq_refl)).
    reflexivity.
Qed.

Lemma dump_locals_outcome (fuel : nat) (d : addr) (st : stack)
    (F : addr -> string) :
  (forall x, repr fuel x st = Some (Ret (F x), st)) ->
  dump_locals fuel d st
  = Some (match stop (ob_items (lookup h d)) with
          | Some e => Raise e
          | None =>
              render_object_dump h
                (entry_items F (yielded (ob_items (lookup h d))))
                "Local variables in frame" None
          end, st).
Proof.
  intros HF. unfold DebugReprGenerator.dump_locals, bind.
  rewrite (locals_loop_rows _ _ F HF). simpl app.
  destruct (stop (ob_items (lookup h d))); reflexivity.
Qed.

(** Among tame objects the values render as their fragments and the
    attributes can be skipped. *)
Lemma tame_attributes (obj : addr) (names : list (addr * result addr)) :
  tame_heap h = true -> ob_dir (lookup h obj) = Ret names ->
  forallb skippable names = true.
Proof.
  intros Ht Hdir.
  pose proof (tame_fields _ (tame_lookup obj Ht)) as (_ & _ & _ & Hn).
  now rewrite Hdir in Hn.
Qed.

(** *** Failures of one value *)

(** C3 (amended).  With a budget above the number of objects not yet on
    the stack, [repr] comes to an end and hands the stack back; it
    returns a fragment, or lets through an exception that is not an
    instance of [Exception].  An [Exception] that the dispatch raises is
    replaced by the broken-representation fragment, which carries the
    escaped summary of the exception, or a question mark when no summary
    can be made.  Among objects that raise only instances of
    [Exception], [repr] always returns a fragment. *)
Theorem repr_contains_Exceptions (fuel : nat) (obj : addr) (st : stack) :
  unvisited h st <= fuel ->
  (exists out,
     repr (S fuel) obj st = Some (out, st)
     /\ match out with
        | Ret _ => True
        | Raise e => exc_is_Exception e = false
        end)
  /\ (forall e st1,
        dispatch_repr (repr fuel) obj (on_stack obj st) (snoc st obj)
        = Some (Raise e, st1) ->
        exc_is_Exception e = true ->
        repr (S fuel) obj st = Some (Ret (fallback_repr e), st))
  /\ (forall e s, exc_format e = Some s ->
        fallback_repr e
        = span "brokenrepr" ++ "&lt;broken repr (" ++ escape (strip s)
          ++ ")&gt;</span>")
  /\ (forall e, exc_format e = None ->
        fallback_repr e = span "brokenrepr" ++ "&lt;broken repr (?)&gt;</span>")
  /\ (tame_heap h = true -> exists f, repr (S fuel) obj st = Some (Ret f, st)).
Proof.
  intros Hf. split; [|split; [|split; [|split]]].
  - destruct (repr_returns (S fuel) obj st) as [out Hr]; [lia|].
    exists out. split; [assumption|].
    destruct out as [f|e]; [exact I|]. now apply repr_quiet in Hr.
  - intros e st1 Hd He. simpl. unfold try_finally, try_except.
    rewrite Hd, He. unfold ret.
    apply dispatch_keeps in Hd; [|intros x; apply repr_keeps].
    subst st1. now rewrite removelast_snoc.
  - intros e s Hs. unfold fallback_repr. now rewrite Hs.
  - intros e Hs. unfold fallback_repr. now rewrite Hs.
  - intros Ht. eexists. apply repr_fragment; [assumption | lia].
Qed.

(** *** The ancestor stack *)







(** The outcome of [repr] when the dispatch gives [out]: the [except]
    clause replaces an instance of [Exception]. *)
Lemma repr_of_dispatch_outcome (fuel : nat) (obj : addr) (st st1 : stack)
    (out : result string) :
  dispatch_repr (repr fuel) obj (on_stack obj st) (snoc st obj)
  = Some (out, st1) ->
  repr (S fuel) obj st
  = Some (match out with
          | Ret f => Ret f
          | Raise e =>
              if exc_is_Exception e then Ret (fallback_repr e) else Raise e
          end, removelast st1).
Proof.
  intros H. simpl. unfold try_finally, try_except. rewrite H.
  destruct out as [f|e]; [reflexivity|].
  destruct (exc_is_Exception e); reflexivity.
Qed.

(** C5.  The stack of a new generator is empty.  With a sufficient
    budget, [repr] runs the dispatch on the stack with the value pushed
    on top; the dispatch comes to an end, by a return or by an
    exception, on that same stack; [repr] returns what the dispatch
    returned, the broken representation in place of an instance of
    [Exception], and the stack without its top, which is the stack it
    was given.  So every nested call finds the stack of its ancestors
    and leaves it as it found it, whatever the outcome, and a top-level
    call ends on the empty stack. *)
Theorem ancestor_stack_lifo :
  DebugReprGenerator_init = []
  /\ (forall fuel obj st,
        unvisited h st <= fuel ->
        exists out,
          dispatch_repr (repr fuel) obj (on_stack obj st) (snoc st obj)
          = Some (out, snoc st obj)
          /\ repr (S fuel) obj st
             = Some (match out with
                     | Ret f => Ret f
                     | Raise e =>
                         if exc_is_Exception e then Ret (fallback_repr e)
                         else Raise e
                     end, removelast (snoc st obj))
          /\ removelast (snoc st obj) = st)
  /\ (forall fuel obj st out st',
        repr fuel obj st = Some (out, st') -> st' = st)
  /\ (forall fuel obj st,
        unvisited h st < fuel -> exists out, repr fuel obj st = Some (out, st))
  /\ (forall fuel obj,
        length h < fuel -> exists out, debug_repr unicode_escape_decode helper h
                                         fuel obj = Some (out, [])).
Proof.
  split; [reflexivity|]. split; [|split; [|split]].
  - intros fuel obj st Hf.
    assert (Hd : returns (dispatch_repr (repr fuel) obj (on_stack obj st))
                   (snoc st obj)).
    { apply dispatch_returns. intros Hrec Hc x. apply repr_returns.
      pose proof (unvisited_push obj st Hc Hrec). lia. }
    destruct Hd as [out Hd]. exists out.
    split; [exact Hd|]. split; [|apply removelast_snoc].
    now apply repr_of_dispatch_outcome.
  - intros fuel obj st out st' H. eapply repr_keeps; eassumption.
  - intros fuel obj st Hf. now apply repr_returns.
  - intros fuel obj Hf. apply repr_returns. unfold unvisited.
    pose proof (filter_length_le (fun a => negb (on_stack a []))
                  (seq 0 (length h))) as Hle.
    rewrite length_seq in Hle. unfold DebugReprGenerator_init. lia.
Qed.

(** *** Text values *)

Lemma looks_like_string_long (r : string) :
  2 <= String.length r -> exists b, looks_like_string r = Ret b.
Proof.
  intros Hl. destruct r as [|c0 [|c1 r]]; simpl in Hl; try lia.
  unfold looks_like_string. simpl.
  destruct (is_quote c0); [now eexists|].
  destruct (c0 =? "b")%char; now eexists.
Qed.

Lemma looks_like_string_short (r : string) :
  r <> "" -> r <> "b" -> exists b, looks_like_string r = Ret b.
Proof.
  intros H0 Hb. destruct r as [|c0 [|c1 r]].
  - congruence.
  - unfold looks_like_string. simpl.
    destruct (is_quote c0); [now eexists|].
    destruct (c0 =? "b")%char eqn:E; [|now eexists].
    apply Ascii.eqb_eq in E. subst. congruence.
  - apply looks_like_string_long. simpl. lia.
Qed.

Lemma string_repr_cases (obj : addr) (r : string) (limit : Z) (b : bool) :
  ob_repr (lookup h obj) = Ret r ->
  looks_like_string r = Ret b ->
  string_repr h obj limit
  = Ret (if b
         then _add_subclass_info (string_out r limit) (lookup h obj)
                [py_bytes; py_str]
         else string_out r limit).
Proof.
  intros Hr Hb. unfold string_repr. rewrite Hr, Hb.
  destruct b; reflexivity.
Qed.

Lemma dispatch_text (self_repr : addr -> eng string) (obj : addr)
    (recursive : bool) :
  obj <> helper ->
  isinstance (lookup h obj) py_str || isinstance (lookup h obj) py_bytes = true ->
  dispatch_repr self_repr obj recursive = lift (string_repr h obj 70).
Proof.
  intros Hh Hc. apply Nat.eqb_neq in Hh.
  rewrite dispatch_repr_eq, Hh. unfold dispatch_by_type, class_error. rewrite Hh.
  unfold isinstance in *.
  destruct (ty_base (ob_type (lookup h obj))); simpl in *; try discriminate;
    reflexivity.
Qed.

(** C8.  For a text or binary text value whose literal form [r] is
    longer than [limit + 2], the fragment that [string_repr] builds is
    the escaped first [limit] characters of [r] followed by the escaped
    rest of [r] inside an extended span, and [string_repr] returns it,
    bare or with the subclass annotation.  When [r] has at most
    [limit + 2] characters the fragment that [string_repr] builds is the
    whole escaped literal, unsplit, and [string_repr] returns it, bare
    or annotated, for every [r] but the empty text and a lone b: on
    these two, which are within the threshold as well, the test of the
    first characters of [r] that follows reads a character that is not
    there, and [string_repr] raises [IndexError] where the claim has the
    literal rendered whole.  The dispatch calls [string_repr] with the
    limit 70. *)
Theorem string_truncation (obj : addr) (r : string) (limit : Z) :
  (0 <= limit)%Z ->
  ob_repr (lookup h obj) = Ret r ->
  ((limit + 2 < Z.of_nat (String.length r))%Z ->
     exists prefix suffix,
       r = prefix ++ suffix
       /\ String.length prefix = Z.to_nat limit
       /\ string_out r limit = split_fragment prefix suffix
       /\ (string_repr h obj limit = Ret (split_fragment prefix suffix)
           \/ string_repr h obj limit
              = Ret (_add_subclass_info (split_fragment prefix suffix)
                       (lookup h obj) [py_bytes; py_str])))
  /\ ((Z.of_nat (String.length r) <= limit + 2)%Z ->
      string_out r limit = whole_fragment r
      /\ (r <> "" -> r <> "b" ->
          string_repr h obj limit = Ret (whole_fragment r)
          \/ string_repr h obj limit
             = Ret (_add_subclass_info (whole_fragment r)
                      (lookup h obj) [py_bytes; py_str])))
  /\ (forall self_repr recursive,
        obj <> helper ->
        isinstance (lookup h obj) py_str || isinstance (lookup h obj) py_bytes
        = true ->
        dispatch_repr self_repr obj recursive = lift (string_repr h obj 70))
  /\ (r = "" \/ r = "b" -> string_repr h obj limit = Raise IndexError).
Proof.
  intros Hl Hr. split; [|split; [|split]].
  - intros Hlong.
    assert (Hn : Z.to_nat limit <= String.length r) by lia.
    destruct (substring_split _ _ Hn) as [Hcat Hlen].
    exists (substring 0 (Z.to_nat limit) r),
           (substring (Z.to_nat limit) (String.length r - Z.to_nat limit) r).
    assert (Hout : string_out r limit
                   = split_fragment (substring 0 (Z.to_nat limit) r)
                       (substring (Z.to_nat limit)
                          (String.length r - Z.to_nat limit) r)).
    { unfold string_out.
      replace (Z.of_nat (String.length r) - limit >? 2)%Z with true
        by (symmetry; apply Z.gtb_lt; lia).
      rewrite slice_to_prefix, slice_from_suffix by lia.
      unfold split_fragment, extend, snoc. cbn [app].
      rewrite !join_empty_cons. change (join "" []) with "".
      now rewrite append_nil_r. }
    repeat split; auto.
    destruct (looks_like_string_long r) as [b Hb]; [lia|].
    rewrite (string_repr_cases _ _ _ _ Hr Hb), Hout.
    destruct b; auto.
  - intros Hshort.
    assert (Hout : string_out r limit = whole_fragment r).
    { unfold string_out.
      replace (Z.of_nat (String.length r) - limit >? 2)%Z with false.
      - unfold whole_fragment, snoc. cbn [app].
        rewrite !join_empty_cons. change (join "" []) with "".
        now rewrite append_nil_r.
      - symmetry. destruct (Z.gtb_spec (Z.of_nat (String.length r) - limit) 2);
          [lia | reflexivity]. }
    split; [exact Hout|].
    intros H0 Hb.
    destruct (looks_like_string_short r H0 Hb) as [b Hlook].
    rewrite (string_repr_cases _ _ _ _ Hr Hlook), Hout.
    destruct b; auto.
  - intros self_repr recursive Hh Hc. now apply dispatch_text.
  - intros [->| ->]; unfold string_repr; rewrite Hr; reflexivity.
Qed.

(** *** The entry points *)

Lemma escapable_entry_items (F : addr -> string) (entries : list (addr * addr)) :
  forallb (fun it => escapable h (fst it)) (entry_items F entries)
  = escapable_keys h entries.
Proof.
  unfold entry_items, escapable_keys.
  induction entries as [|e rest IH]; [reflexivity|].
  simpl. now rewrite IH.
Qed.

Lemma exact_key_escape (key : addr) :
  type_is (lookup h key) py_str = true ->
  escape_key h key = Ret (escape (ob_text (lookup h key))).
Proof. intros Hk. unfold escape_key. now rewrite Hk. Qed.

Lemma exact_keys_escapable (entries : list (addr * addr)) :
  exact_keys h entries = true -> escapable_keys h entries = true.
Proof.
  unfold exact_keys, escapable_keys. rewrite !forallb_forall.
  intros H e He. specialize (H e He). cbv beta in *.
  unfold escapable. now rewrite (exact_key_escape _ H).
Qed.

(** The rows of the names that can be escaped. *)
Lemma entry_rows (F : addr -> string) (entries : list (addr * addr)) :
  escapable_keys h entries = true ->
  html_rows h (entry_items F entries) []
  = Ret (map (fun r => html_row (fst r) (snd r))
           (map (fun e => (escaped_name h (fst e), F (snd e))) entries)).
Proof.
  intros Hk. apply (html_rows_escaped _ _ []).
  unfold escapable_keys, entry_items in *.
  induction entries as [|[key value] rest IH]; simpl; constructor.
  - simpl in Hk. apply andb_true_iff in Hk. destruct Hk as [Hk _].
    split; [|reflexivity]. unfold escaped_name, escapable in *. simpl in *.
    destruct (escape_key h key); [reflexivity | discriminate].
  - apply IH. simpl in Hk. now apply andb_true_iff in Hk.
Qed.

(** The page of the rows whose names can be escaped, and the error of
    the first name that cannot. *)
Lemma render_entries (F : addr -> string) (entries : list (addr * addr))
    (title : string) (top : option string) :
  escapable_keys h entries = true ->
  render_object_dump h (entry_items F entries) title top
  = Ret (dump_page (escape title) (repr_or_empty top) (entry_table h F entries)).
Proof.
  intros Hk. unfold entry_table.
  now rewrite (render_object_dump_escaped _ _ _ _ (entry_rows F _ Hk)).
Qed.

Lemma render_entries_bad_key (F : addr -> string)
    (pre post : list (addr * addr)) (key value : addr) (title : string)
    (top : option string) (e : exn) :
  escapable_keys h pre = true ->
  escape_key h key = Raise e ->
  render_object_dump h (entry_items F (pre ++ (key, value) :: post)) title top
  = Raise e.
Proof.
  intros Hpre Hk. unfold entry_items. rewrite map_app. cbn [map fst snd].
  apply render_object_dump_bad_key; [|exact Hk].
  fold (entry_items F pre). now rewrite escapable_entry_items.
Qed.

(** [render_object_dump] returns a page only when every row name can be
    escaped. *)
Lemma render_object_dump_escapable (items : list (rowkey * string))
    (title : string) (top : option string) (out : string) :
  render_object_dump h items title top = Ret out ->
  forallb (fun it => escapable h (fst it)) items = true.
Proof.
  intros Hr.
  destruct (forallb (fun it => escapable h (fst it)) items) eqn:E;
    [reflexivity|].
  destruct (forallb_false_split _ _ E) as (pre & [k v] & post & -> & Hpre & Hk).
  unfold escapable in Hk. simpl in Hk.
  destruct (escape_key h k) as [name|e] eqn:Ek; [discriminate|].
  rewrite (render_object_dump_bad_key pre post k v title top e Hpre Ek) in Hr.
  discriminate.
Qed.

(** What the dumps do among objects that raise only instances of
    [Exception], with a sufficient budget. *)
Lemma dump_object_tame (fuel : nat) (obj : addr) (st : stack) :
  tame_heap h = true -> unvisited h st < fuel ->
  dump_object fuel obj st
  = Some (match shows_contents h (lookup h obj) with
          | Raise e => Raise e
          | Ret true =>
              match stop (ob_items (lookup h obj)) with
              | Some e => Raise e
              | None =>
                  render_object_dump h
                    (entry_items (fun x => fragment_of (repr fuel x st))
                       (yielded (ob_items (lookup h obj))))
                    ("Contents of " ++ identity_descriptor (lookup h obj)) None
              end
          | Ret false =>
              match ob_dir (lookup h obj) with
              | Raise e => Raise e
              | Ret names =>
                  render_object_dump h
                    (entry_items (fun x => fragment_of (repr fuel x st))
                       (readable names))
                    ("Details for " ++ identity_descriptor (lookup h obj))
                    (Some (fragment_of (repr fuel obj st)))
              end
          end, st).
Proof.
  intros Ht Hf. apply dump_object_outcome.
  - intros x. now apply repr_fragment.
  - intros names _ Hdir. now apply (tame_attributes obj).
Qed.

Lemma dump_locals_tame (fuel : nat) (d : addr) (st : stack) :
  tame_heap h = true -> unvisited h st < fuel ->
  dump_locals fuel d st
  = Some (match stop (ob_items (lookup h d)) with
          | Some e => Raise e
          | None =>
              render_object_dump h
                (entry_items (fun x => fragment_of (repr fuel x st))
                   (yielded (ob_items (lookup h d))))
                "Local variables in frame" None
          end, st).
Proof.
  intros Ht Hf. apply dump_locals_outcome.
  intros x. now apply repr_fragment.
Qed.

(** An attribute that raises an exception which is no instance of
    [Exception] ends the dump of an object that is no mapping. *)
Lemma dump_object_interrupt (fuel : nat) (obj : addr) (st : stack)
    (top : string) (name : addr) (e : exn)
    (pre post : list (addr * result addr)) :
  isinstance_call (lookup h obj) py_dict = Ret false ->
  repr fuel obj st = Some (Ret top, st) ->
  ob_dir (lookup h obj) = Ret (pre ++ (name, Raise e) :: post)%list ->
  Forall (fun n => match snd n with
                   | Ret v => exists f, repr fuel v st = Some (Ret f, st)
                   | Raise e' => exc_is_Exception e' = true
                   end) pre ->
  exc_is_Exception e = false ->
  dump_object fuel obj st = Some (Raise e, st).
Proof.
  intros Hd Htop Hdir Hpre He.
  unfold DebugReprGenerator.dump_object, bind, lift, ret.
  rewrite Hd. cbv beta iota zeta. rewrite Htop, Hdir.
  now rewrite (details_loop_interrupt _ _ name e post He pre [] Hpre).
Qed.

(** C9 (amended).  Among objects that raise only instances of
    [Exception] and with a sufficient budget: for a [dict] instance
    whose keys are all instances of [str] that [html.escape] accepts,
    as it does every exact [str], and whose iteration completes,
    [dump_object] returns the table titled Contents of and the identity
    descriptor, with an empty header block and one row per entry, made
    of the escaped key and of the fragment of the value; for any other
    value whose class and keys can be tested, whose [dir] can be taken
    and whose attribute names [html.escape] accepts, it returns the
    table titled Details for and the identity descriptor, with the
    fragment of the value as header and one row for each attribute that
    could be read, in the order of [dir], the attributes that raise
    having no row.  An error of the tests of the class or of a key, of
    the iteration of [items()], of [dir] or of the escaping of a row
    name is raised by [dump_object] in place of a table; so is, with or
    without the first condition, an exception that is no instance of
    [Exception] raised by an attribute of an object that is no
    mapping. *)
Theorem dump_object_dichotomy (fuel : nat) (obj : addr) (st : stack) :
  unvisited h st < fuel ->
  (tame_heap h = true ->
   (isinstance (lookup h obj) py_dict = true ->
    forallb (fun e => isinstance (lookup h (fst e)) py_str)
      (yielded (ob_items (lookup h obj))) = true ->
    stop (ob_items (lookup h obj)) = None ->
    escapable_keys h (yielded (ob_items (lookup h obj))) = true ->
    dump_object fuel obj st
    = Some (Ret (dump_page
                   (escape ("Contents of "
                            ++ identity_descriptor (lookup h obj)))
                   ""
                   (entry_table h (fun x => fragment_of (repr fuel x st))
                      (yielded (ob_items (lookup h obj))))), st))
   /\ (shows_contents h (lookup h obj) = Ret false ->
       forall names,
         ob_dir (lookup h obj) = Ret names ->
         escapable_keys h (readable names) = true ->
         dump_object fuel obj st
         = Some (Ret (dump_page
                        (escape ("Details for "
                                 ++ identity_descriptor (lookup h obj)))
                        (fragment_of (repr fuel obj st))
                        (entry_table h (fun x => fragment_of (repr fuel x st))
                           (readable names))), st))
   /\ (forall e,
         shows_contents h (lookup h obj) = Raise e
         \/ (shows_contents h (lookup h obj) = Ret true
             /\ stop (ob_items (lookup h obj)) = Some e)
         \/ (shows_contents h (lookup h obj) = Ret false
             /\ ob_dir (lookup h obj) = Raise e) ->
         dump_object fuel obj st = Some (Raise e, st))
   /\ (forall pre key value post e,
         escapable_keys h pre = true ->
         escape_key h key = Raise e ->
         (shows_contents h (lookup h obj) = Ret true
          /\ stop (ob_items (lookup h obj)) = None
          /\ yielded (ob_items (lookup h obj))
             = (pre ++ (key, value) :: post)%list)
         \/ (shows_contents h (lookup h obj) = Ret false
             /\ exists names,
                  ob_dir (lookup h obj) = Ret names
                  /\ readable names = (pre ++ (key, value) :: post)%list) ->
         dump_object fuel obj st = Some (Raise e, st)))
  /\ (forall top name e pre post,
        isinstance_call (lookup h obj) py_dict = Ret false ->
        repr fuel obj st = Some (Ret top, st) ->
        ob_dir (lookup h obj) = Ret (pre ++ (name, Raise e) :: post)%list ->
        Forall (fun n => match snd n with
                         | Ret v => exists f, repr fuel v st = Some (Ret f, st)
                         | Raise e' => exc_is_Exception e' = true
                         end) pre ->
        exc_is_Exception e = false ->
        dump_object fuel obj st = Some (Raise e, st))
  /\ (forall key,
        type_is (lookup h key) py_str = true ->
        escape_key h key = Ret (escape (ob_text (lookup h key)))
        /\ escaped_name h key = escape (ob_text (lookup h key)))
  /\ (isinstance (lookup h obj) py_dict = false ->
      shows_contents h (lookup h obj)
      = match ob_class (lookup h obj) with
        | Some e => Raise e
        | None => Ret false
        end).
Proof.
  intros Hf. split; [|split; [|split]].
  - intros Ht. split; [|split; [|split]].
    + intros Hd Hk Hstop He.
      rewrite (dump_object_tame fuel obj st Ht Hf).
      unfold shows_contents. rewrite (isinstance_call_yes _ _ Hd).
      rewrite (text_keys_isinstance _ Hk), Hstop.
      now rewrite (render_entries _ _ _ _ He).
    + intros Hd names Hdir He.
      rewrite (dump_object_tame fuel obj st Ht Hf), Hd, Hdir.
      rewrite (render_entries _ _ _ _ He).
      now rewrite repr_or_empty_Some.
    + intros e Hcase. rewrite (dump_object_tame fuel obj st Ht Hf).
      destruct Hcase as [Hs|[[Hs Hstop]|[Hs Hdir]]]; rewrite Hs;
        [reflexivity | now rewrite Hstop | now rewrite Hdir].
    + intros pre key value post e Hpre Hk Hcase.
      rewrite (dump_object_tame fuel obj st Ht Hf).
      destruct Hcase as [(Hs & Hstop & Hy)|(Hs & names & Hdir & Hy)].
      * rewrite Hs, Hstop, Hy.
        now rewrite (render_entries_bad_key _ _ _ _ _ _ _ e Hpre Hk).
      * rewrite Hs, Hdir, Hy.
        now rewrite (render_entries_bad_key _ _ _ _ _ _ _ e Hpre Hk).
  - intros top name e pre post. apply dump_object_interrupt.
  - intros key Hk. unfold escaped_name.
    now rewrite (exact_key_escape _ Hk).
  - intros Hd. unfold shows_contents, isinstance_call. rewrite Hd.
    destruct (ob_class (lookup h obj)); reflexivity.
Qed.

(** C7 (amended).  [repr] comes to an end and surfaces no instance of
    [Exception].  Among objects that raise only instances of
    [Exception], [repr] returns a fragment for every value;
    [dump_object] returns a fragment exactly for a mapping whose keys
    pass the test of [str], whose iteration completes and whose keys
    [html.escape] accepts, and for a value that is shown with its
    attributes, whose [dir] can be taken and the names of whose
    readable attributes [html.escape] accepts; [dump_locals] returns a
    fragment exactly for a mapping whose iteration completes and whose
    keys [html.escape] accepts.  Keys that are exact [str] are accepted,
    so a [dict] with such keys whose iteration completes is dumped by
    both. *)
Theorem entry_points_contain_Exceptions (fuel : nat) (st : stack) :
  unvisited h st < fuel ->
  (forall obj, exists out,
      repr fuel obj st = Some (out, st)
      /\ forall e, out = Raise e -> exc_is_Exception e = false)
  /\ (tame_heap h = true ->
      (forall obj, exists f, repr fuel obj st = Some (Ret f, st))
      /\ (forall obj,
            (exists f, dump_object fuel obj st = Some (Ret f, st))
            <-> (shows_contents h (lookup h obj) = Ret true
                 /\ stop (ob_items (lookup h obj)) = None
                 /\ escapable_keys h (yielded (ob_items (lookup h obj))) = true)
                \/ (shows_contents h (lookup h obj) = Ret false
                    /\ exists names,
                         ob_dir (lookup h obj) = Ret names
                         /\ escapable_keys h (readable names) = true))
      /\ (forall d,
            (exists f, dump_locals fuel d st = Some (Ret f, st))
            <-> stop (ob_items (lookup h d)) = None
                /\ escapable_keys h (yielded (ob_items (lookup h d))) = true)
      /\ (forall obj,
            isinstance (lookup h obj) py_dict = true ->
            exact_keys h (yielded (ob_items (lookup h obj))) = true ->
            stop (ob_items (lookup h obj)) = None ->
            (exists f, dump_object fuel obj st = Some (Ret f, st))
            /\ (exists f, dump_locals fuel obj st = Some (Ret f, st)))).
Proof.
  intros Hf. split.
  - intros obj. destruct (repr_returns fuel obj st Hf) as [out Hr].
    exists out. split; [assumption|].
    intros e ->. now apply repr_quiet in Hr.
  - intros Ht.
    assert (Hobj : forall obj,
      (exists f, dump_object fuel obj st = Some (Ret f, st))
      <-> (shows_contents h (lookup h obj) = Ret true
           /\ stop (ob_items (lookup h obj)) = None
           /\ escapable_keys h (yielded (ob_items (lookup h obj))) = true)
          \/ (shows_contents h (lookup h obj) = Ret false
              /\ exists names,
                   ob_dir (lookup h obj) = Ret names
                   /\ escapable_keys h (readable names) = true)).
    { intros obj. rewrite (dump_object_tame fuel obj st Ht Hf). split.
      - intros [f H].
        destruct (shows_contents h (lookup h obj)) as [[|]|e];
          [| |discriminate].
        + left. split; [reflexivity|].
          destruct (stop (ob_items (lookup h obj))) as [e|]; [discriminate|].
          split; [reflexivity|].
          inv H. rewrite <- escapable_entry_items
            with (F := fun x => fragment_of (repr fuel x st)).
          eapply render_object_dump_escapable.
          match goal with H : _ = Ret f |- _ => exact H end.
        + right. split; [reflexivity|].
          destruct (ob_dir (lookup h obj)) as [names|e]; [|discriminate].
          exists names. split; [reflexivity|].
          inv H. rewrite <- escapable_entry_items
            with (F := fun x => fragment_of (repr fuel x st)).
          eapply render_object_dump_escapable.
          match goal with H : _ = Ret f |- _ => exact H end.
      - intros [(Hs & Hstop & Hk)|(Hs & names & Hdir & Hk)].
        + rewrite Hs, Hstop, (render_entries _ _ _ _ Hk). now eexists.
        + rewrite Hs, Hdir, (render_entries _ _ _ _ Hk). now eexists. }
    assert (Hloc : forall d,
      (exists f, dump_locals fuel d st = Some (Ret f, st))
      <-> stop (ob_items (lookup h d)) = None
          /\ escapable_keys h (yielded (ob_items (lookup h d))) = true).
    { intros d. rewrite (dump_locals_tame fuel d st Ht Hf). split.
      - intros [f H].
        destruct (stop (ob_items (lookup h d))) as [e|]; [discriminate|].
        split; [reflexivity|].
        inv H. rewrite <- escapable_entry_items
          with (F := fun x => fragment_of (repr fuel x st)).
        eapply render_object_dump_escapable.
        match goal with H : _ = Ret f |- _ => exact H end.
      - intros [Hstop Hk].
        rewrite Hstop, (render_entries _ _ _ _ Hk). now eexists. }
    split; [|split; [|split]].
    + intros obj. eexists. now apply repr_fragment.
    + exact Hobj.
    + exact Hloc.
    + intros obj Hd Hk Hstop. split.
      * apply Hobj. left. split; [|split].
        -- unfold shows_contents. rewrite (isinstance_call_yes _ _ Hd).
           now apply text_keys_isinstance, exact_keys_isinstance.
        -- exact Hstop.
        -- now apply exact_keys_escapable.
      * apply Hloc. split; [exact Hstop | now apply exact_keys_escapable].
Qed.

(** *** The header block of the dump *)

Lemma html_rows_total (items : list (rowkey * string)) :
  Forall (fun it => exists name, escape_key h (fst it) = Ret name) items ->
  forall acc, exists rows, html_rows h items acc = Ret rows.
Proof.
  induction 1 as [|[key value] rest [name Hk] _ IH]; intros acc.
  - now exists acc.
  - simpl in *. rewrite Hk. apply IH.
Qed.

Lemma render_object_dump_shape (items : list (rowkey * string))
    (title : string) (top : option string) (out : string) :
  render_object_dump h items title top = Ret out ->
  exists rows, out = dump_page (escape title) (repr_or_empty top) rows.
Proof.
  unfold render_object_dump. intros H.
  destruct (html_rows h items []) as [rows|e]; [|discriminate].
  rewrite object_dump_template in H. inv H.
  exists (join nl match rows with
                  | [] => snoc rows "<tr><td><em>Nothing</em>"
                  | _ => rows
                  end).
  unfold dump_page. simpl. now rewrite !append_assoc.
Qed.

Lemma contents_loop_Some (self_repr : addr -> eng string) :
  forall entries items st r st',
    forallb (fun e => isinstance (lookup h (fst e)) py_str) entries = true ->
    contents_loop h self_repr entries items st = Some (Ret r, st') ->
    exists items', r = Some items'.
Proof.
  induction entries as [|[key value] rest IH]; intros items st r st' Hk H.
  - inv H. now eexists.
  - simpl in Hk. apply andb_true_iff in Hk. destruct Hk as [Hk Hrest].
    simpl in H. unfold bind at 1, lift in H.
    rewrite (isinstance_call_yes _ _ Hk) in H. simpl in H.
    apply bind_Ret_inv in H. destruct H as (f & st1 & _ & H).
    eapply IH; eassumption.
Qed.

(** C10.  Every page that [render_object_dump] returns has one header
    block, between the title and the table; the block is empty when no
    top-level representation is given, as it is for [dump_locals] and
    for the [dump_object] of a mapping with text keys.  The page is
    returned whenever every row name can be escaped. *)
Theorem object_dump_header :
  (forall items title top out,
     render_object_dump h items title top = Ret out ->
     exists rows, out = dump_page (escape title) (repr_or_empty top) rows)
  /\ repr_or_empty None = ""
  /\ (forall items title top,
        Forall (fun it => exists name, escape_key h (fst it) = Ret name) items ->
        exists out, render_object_dump h items title top = Ret out)
  /\ (forall fuel d st out st',
        dump_locals fuel d st = Some (Ret out, st') ->
        exists rows,
          out = dump_page (escape "Local variables in frame") "" rows)
  /\ (forall fuel obj st out st',
        dump_object fuel obj st = Some (Ret out, st') ->
        exists title header rows, out = dump_page title header rows)
  /\ (forall fuel obj st out st',
        isinstance (lookup h obj) py_dict = true ->
        forallb (fun e => isinstance (lookup h (fst e)) py_str)
          (yielded (ob_items (lookup h obj))) = true ->
        dump_object fuel obj st = Some (Ret out, st') ->
        exists title rows, out = dump_page title "" rows).
Proof.
  split; [|split; [|split; [|split; [|split]]]].
  - apply render_object_dump_shape.
  - reflexivity.
  - intros items title top HF.
    destruct (html_rows_total items HF []) as [rows Hr].
    unfold render_object_dump. rewrite Hr, object_dump_template.
    now eexists.
  - intros fuel d st out st' H. unfold DebugReprGenerator.dump_locals in H.
    apply bind_Ret_inv in H. destruct H as (items & st1 & _ & H).
    apply bind_Ret_inv in H. destruct H as (u & st2 & _ & H).
    unfold lift in H. inv H.
    match goal with
    | H : render_object_dump _ _ _ _ = _ |- _ =>
        apply render_object_dump_shape in H; destruct H as [rows ->]
    end.
    now exists rows.
  - intros fuel obj st out st' H. unfold DebugReprGenerator.dump_object in H.
    apply bind_Ret_inv in H. destruct H as (mapping & st0 & _ & H).
    apply bind_Ret_inv in H. destruct H as (items & st1 & _ & H).
    apply bind_Ret_inv in H. destruct H as ([[rows title] top] & st2 & _ & H).
    unfold lift in H. inv H.
    match goal with
    | H : render_object_dump _ _ _ _ = _ |- _ =>
        apply render_object_dump_shape in H; destruct H as [r ->]
    end.
    now eexists _, _, _.
  - intros fuel obj st out st' Hd Hk H.
    unfold DebugReprGenerator.dump_object in H.
    apply bind_Ret_inv in H. destruct H as (mapping & stm & Hm & H).
    unfold lift in Hm. rewrite (isinstance_call_yes _ _ Hd) in Hm. inv Hm.
    apply bind_Ret_inv in H. destruct H as (items & st1 & Hitems & H).
    apply bind_Ret_inv in Hitems. destruct Hitems as (r & st0 & Hloop & Hfin).
    destruct (contents_loop_Some _ _ _ _ _ _ Hk Hloop) as [items' ->].
    apply bind_Ret_inv in Hfin. destruct Hfin as (u & st3 & _ & Hfin).
    inv Hfin.
    apply bind_Ret_inv in H. destruct H as ([[rows title] top] & st2 & Hr & H).
    inv Hr. unfold lift in H. inv H.
    match goal with
    | H : render_object_dump _ _ _ _ = _ |- _ =>
        apply render_object_dump_shape in H; destruct H as [r ->]
    end.
    now eexists _, _.
Qed.

End Properties.

(* ------------------------------------------------------------------ *)
(** ** Text that is not escaped *)

(** [regex_repr] inserts the decoded literal of the pattern as it is. *)
Lemma regex_repr_verbatim (decode : string -> string) (h : heap) (obj : addr)
    (pattern : string) :
  ob_repr (lookup h (ob_pattern (lookup h obj))) = Ret pattern ->
  regex_repr decode h obj
  = Ret ("re.compile(" ++ span "string regex" ++ "r" ++ decode pattern
         ++ "</span>)").
Proof. intros H. unfold regex_repr. now rewrite H. Qed.

(** The two outcomes of [_add_subclass_info]. *)
Lemma add_subclass_info_cases (inner : string) (o : pyobj) (base : list builtin) :
  (existsb (type_is o) base = true -> _add_subclass_info inner o base = inner)
  /\ (existsb (type_is o) base = false ->
      _add_subclass_info inner o base
      = (if existsb (String.eqb (ty_module (ob_type o)))
              ["__builtin__"; "exceptions"]
         then ""
         else span "module" ++ ty_module (ob_type o) ++ ".</span>")
        ++ ty_name (ob_type o) ++ "(" ++ inner ++ ")").
Proof.
  unfold _add_subclass_info. split; intros H; rewrite H; reflexivity.
Qed.

(** The text values, the other objects and the broken representations
    are escaped. *)
Lemma escaped_fragments (r : string) :
  has_markup (escape r) = false
  /\ whole_fragment r = span "string" ++ escape r ++ "</span>"
  /\ (forall h obj, ob_repr (lookup h obj) = Ret r ->
        object_repr h obj = Ret (span "object" ++ escape r ++ "</span>")).
Proof.
  split; [apply escape_clean|]. split; [reflexivity|].
  intros h obj H. unfold object_repr. now rewrite H.
Qed.

(** C1.  At the compiled regular expression of the pattern <b>, and at
    a member of an IntEnum, whose repr is <Color.RED: 1>, [repr] puts
    the text of the value into the fragment as it is, markup characters
    included, where [html.escape] would have replaced them. *)
Theorem markup_reaches_fragment :
  sample_repr 17 []
  = Some (Ret ("re.compile(" ++ span "string regex" ++ "r'<b>'" ++ "</span>)"), [])
  /\ sample_repr 18 []
     = Some (Ret (span "number" ++ "<Color.RED: 1>" ++ "</span>"), [])
  /\ has_markup "r'<b>'" = true
  /\ has_markup "<Color.RED: 1>" = true
  /\ escape "r'<b>'" = "r&#x27;&lt;b&gt;&#x27;"
  /\ escape "<Color.RED: 1>" = "&lt;Color.RED: 1&gt;".
Proof. repeat split; vm_compute; reflexivity. Qed.

(** C6.  At an instance of a list subclass whose [__module__] is a<b,
    [_add_subclass_info] puts the module name into the qualifier as it
    is, where [html.escape] would have replaced the markup character;
    and it keeps the prefix for a class of the module builtins, the
    built-in namespace, since it omits it only for the module names
    __builtin__ and exceptions. *)
Theorem module_name_unescaped :
  _add_subclass_info "[]" (lookup sample_heap 15) [py_list]
  = span "module" ++ "a<b." ++ "</span>" ++ "L([])"
  /\ escape "a<b" = "a&lt;b"
  /\ sample_repr 15 []
     = Some (Ret (span "module" ++ "a<b.</span>L([" ++ span "number"
                  ++ "0</span>])"), [])
  /\ _add_subclass_info "[]" (py_sequence (subclass py_list "builtins" "L") [])
       [py_list]
     = span "module" ++ "builtins.</span>L([])".
Proof. repeat split; vm_compute; reflexivity. Qed.

(* ------------------------------------------------------------------ *)
(** ** The properties on the sample objects *)


Ltac strings_differ H :=
  apply (f_equal fragment_of) in H; simpl fragment_of in H;
  apply String.eqb_eq in H; vm_compute in H; discriminate H.



(** Against C3 as stated: [KeyboardInterrupt] raised by a [__repr__]
    leaves [repr], also through the list that holds the object. *)
Lemma KeyboardInterrupt_counterexample :
  repr sample_decode sample_helper interrupt_heap sample_fuel 1 []
  = Some (Raise KeyboardInterrupt, [])
  /\ repr sample_decode sample_helper interrupt_heap sample_fuel 2 []
     = Some (Raise KeyboardInterrupt, []).
Proof. split; vm_compute; reflexivity. Qed.

(** The tuple of an object whose [__repr__] raises [ValueError] and of
    an integer is rendered. *)
Lemma repr_contains_Exceptions_witness :
  unvisited sample_heap [] <= 39
  /\ tame_heap sample_heap = true
  /\ exists f, sample_repr 22 [] = Some (Ret f, []).
Proof.
  assert (H : unvisited sample_heap [] <= 39) by (vm_compute; lia).
  split; [exact H|]. split; [reflexivity|].
  exact (proj2 (proj2 (proj2 (proj2
           (repr_contains_Exceptions sample_decode sample_helper sample_heap
              39 22 [] H)))) eq_refl).
Defined.


(** The list that contains itself: the dispatch runs on the stack that
    holds it, and the stack is empty again afterwards. *)
Lemma ancestor_stack_lifo_witness :
  length sample_heap < sample_fuel
  /\ (exists out,
        DebugReprGenerator.dispatch_repr sample_decode sample_helper sample_heap
          (repr sample_decode sample_helper sample_heap 39) 12 false [12]
        = Some (out, [12])
        /\ sample_repr 12 []
           = Some (match out with
                   | Ret f => Ret f
                   | Raise e =>
                       if exc_is_Exception e then Ret (fallback_repr e)
                       else Raise e
                   end, []))
  /\ (exists out, debug_repr sample_decode sample_helper sample_heap
                    sample_fuel 12 = Some (out, []))
  /\ forall out st', sample_repr 12 [13] = Some (out, st') -> st' = [13].
Proof.
  destruct (ancestor_stack_lifo sample_decode sample_helper sample_heap)
    as (H1 & H2 & H3 & H4 & H5).
  assert (H : length sample_heap < sample_fuel) by (vm_compute; lia).
  assert (H39 : unvisited sample_heap [] <= 39) by (vm_compute; lia).
  split; [exact H|]. split; [|split].
  - destruct (H2 39 12 [] H39) as (out & Hd & Hr & _).
    exists out. split; [exact Hd | exact Hr].
  - exact (H5 sample_fuel 12 H).
  - intros out st'. apply H3.
Defined.

(** Against C7 as stated: [dump_locals] raises on a mapping with an
    integer key and on one with a [bytes] key, [dump_object] on an
    object whose [__dir__] raises, on a proxy and on an instance of an
    [int] subclass whose class cannot be read, on a mapping with one of
    these as key, and on a mapping whose key is an instance of a [str]
    subclass with a [replace] that raises.  All these objects raise
    instances of [Exception] only. *)
Lemma entry_points_counterexample :
  sample_dump_locals 14
  = Some (Raise (AttributeError_replace (lookup sample_heap 1)), [])
  /\ exc_is_Exception (AttributeError_replace (lookup sample_heap 1)) = true
  /\ sample_dump_object 23 = Some (Raise ValueError, [])
  /\ exc_is_Exception ValueError = true
  /\ dump_locals sample_decode sample_helper exotic_heap sample_fuel 3 []
     = Some (Raise TypeError_replace, [])
  /\ dump_object sample_decode sample_helper exotic_heap sample_fuel 4 []
     = Some (Raise RuntimeError, [])
  /\ dump_object sample_decode sample_helper exotic_heap sample_fuel 7 []
     = Some (Raise RuntimeError, [])
  /\ dump_object sample_decode sample_helper exotic_heap sample_fuel 6 []
     = Some (Raise ValueError, [])
  /\ dump_object sample_decode sample_helper exotic_heap sample_fuel 11 []
     = Some (Raise RuntimeError, [])
  /\ dump_object sample_decode sample_helper exotic_heap sample_fuel 12 []
     = Some (Raise RuntimeError, [])
  /\ tame_heap sample_heap = true
  /\ tame_heap exotic_heap = true.
Proof. repeat split; vm_compute; reflexivity. Qed.

(** On the sample objects every entry point returns a fragment. *)
Lemma entry_points_contain_Exceptions_witness :
  unvisited sample_heap [] < sample_fuel
  /\ tame_heap sample_heap = true
  /\ (exists f, sample_repr 22 [] = Some (Ret f, []))
  /\ (exists f, sample_dump_object 26 = Some (Ret f, []))
  /\ (exists f, sample_dump_object 27 = Some (Ret f, []))
  /\ (exists f, sample_dump_locals 26 = Some (Ret f, [])).
Proof.
  assert (H : unvisited sample_heap [] < sample_fuel) by (vm_compute; lia).
  destruct (entry_points_contain_Exceptions sample_decode sample_helper
              sample_heap sample_fuel [] H) as [_ Ht].
  destruct (Ht eq_refl) as (H1 & H2 & H3 & H4).
  split; [exact H|]. split; [reflexivity|].
  split; [|split; [|split]].
  - apply H1.
  - apply H2. left. repeat split; reflexivity.
  - apply H2. right. split; [reflexivity|].
    eexists. split; reflexivity.
  - apply H3. split; reflexivity.
Defined.

(** The text of eighty characters is split after seventy characters of
    its literal; the literal of the text <b> is rendered whole. *)
Lemma string_truncation_witness :
  (exists prefix suffix,
     long_literal = prefix ++ suffix
     /\ String.length prefix = 70
     /\ string_out long_literal 70 = split_fragment prefix suffix
     /\ (string_repr sample_heap 28 70 = Ret (split_fragment prefix suffix)
         \/ string_repr sample_heap 28 70
            = Ret (_add_subclass_info (split_fragment prefix suffix)
                     (lookup sample_heap 28) [py_bytes; py_str])))
  /\ string_out "'<b>'" 70 = whole_fragment "'<b>'"
  /\ (string_repr sample_heap 16 70 = Ret (whole_fragment "'<b>'")
      \/ string_repr sample_heap 16 70
         = Ret (_add_subclass_info (whole_fragment "'<b>'")
                  (lookup sample_heap 16) [py_bytes; py_str])).
Proof.
  assert (H70 : (0 <= 70)%Z) by lia.
  split; [|split].
  - apply (proj1 (string_truncation sample_decode sample_helper sample_heap
                    28 long_literal 70 H70 eq_refl)).
    vm_compute. reflexivity.
  - apply (proj1 (proj2 (string_truncation sample_decode sample_helper
                           sample_heap 16 "'<b>'" 70 H70 eq_refl))).
    vm_compute. discriminate.
  - apply (proj1 (proj2 (string_truncation sample_decode sample_helper
                           sample_heap 16 "'<b>'" 70 H70 eq_refl))).
    + vm_compute. discriminate.
    + discriminate.
    + discriminate.
Defined.

(** A [str] subclass whose [__repr__] returns the empty text: the test
    of the first character fails, and [repr] shows a broken
    representation. *)
Example string_repr_empty_literal :
  string_out "" 70 = whole_fragment ""
  /\ string_repr sample_heap 19 70 = Raise IndexError
  /\ sample_repr 19 [] = Some (Ret (fallback_repr IndexError), []).
Proof. repeat split; vm_compute; reflexivity. Qed.

(** The failing inputs of C8: the literal form of an instance of a
    [str] subclass whose [__repr__] returns the empty text, and of an
    instance of a [bytes] subclass whose [__repr__] returns b, has at
    most 72 characters, and [string_repr] does not render it whole: its
    test of the first characters raises [IndexError], and [repr] shows a
    broken representation. *)
Lemma string_truncation_counterexample :
  isinstance (lookup sample_heap 19) py_str = true
  /\ ob_repr (lookup sample_heap 19) = Ret ""
  /\ (Z.of_nat (String.length "") <= 70 + 2)%Z
  /\ string_repr sample_heap 19 70 = Raise IndexError
  /\ sample_repr 19 [] = Some (Ret (fallback_repr IndexError), [])
  /\ sample_repr 19 [] <> Some (Ret (whole_fragment ""), [])
  /\ isinstance (lookup exotic_heap 10) py_bytes = true
  /\ ob_repr (lookup exotic_heap 10) = Ret "b"
  /\ string_repr exotic_heap 10 70 = Raise IndexError
  /\ repr sample_decode sample_helper exotic_heap sample_fuel 10 []
     = Some (Ret (fallback_repr IndexError), []).
Proof.
  repeat split; try (vm_compute; reflexivity).
  - vm_compute. discriminate.
  - intros H. strings_differ H.
Qed.

(** Against C9 as stated: [dump_object] returns no table for an object
    whose [__dir__] raises, nor for an object with an attribute whose
    evaluation raises [KeyboardInterrupt]. *)
Lemma dump_object_counterexample :
  sample_dump_object 23 = Some (Raise ValueError, [])
  /\ dump_object sample_decode sample_helper interrupt_heap sample_fuel 3 []
     = Some (Raise KeyboardInterrupt, []).
Proof. split; vm_compute; reflexivity. Qed.

(** The mapping with the keys x and y, and the object with the
    attributes p, q and r, of which q raises; the object whose
    [__dir__] raises, and the mapping whose key cannot be escaped. *)
Lemma dump_object_dichotomy_witness :
  sample_dump_object 26
  = Some (Ret (dump_page
                 (escape ("Contents of "
                          ++ identity_descriptor (lookup sample_heap 26)))
                 ""
                 (html_table [("x", sample_fragment [] 2);
                              ("y", sample_fragment [] 12)])), [])
  /\ sample_dump_object 27
     = Some (Ret (dump_page
                    (escape ("Details for "
                             ++ identity_descriptor (lookup sample_heap 27)))
                    (sample_fragment [] 27)
                    (html_table [("p", sample_fragment [] 2);
                                 ("r", sample_fragment [] 12)])), [])
  /\ sample_dump_object 23 = Some (Raise ValueError, [])
  /\ dump_object sample_decode sample_helper exotic_heap sample_fuel 6 []
     = Some (Raise ValueError, [])
  /\ dump_object sample_decode sample_helper interrupt_heap sample_fuel 3 []
     = Some (Raise KeyboardInterrupt, []).
Proof.
  assert (H : unvisited sample_heap [] < sample_fuel) by (vm_compute; lia).
  assert (Hx : unvisited exotic_heap [] < sample_fuel) by (vm_compute; lia).
  assert (Hi : unvisited interrupt_heap [] < sample_fuel) by (vm_compute; lia).
  destruct (dump_object_dichotomy sample_decode sample_helper sample_heap
              sample_fuel 26 [] H) as [H26 _].
  destruct (H26 eq_refl) as (Hc & _).
  destruct (dump_object_dichotomy sample_decode sample_helper sample_heap
              sample_fuel 27 [] H) as [H27 _].
  destruct (H27 eq_refl) as (_ & Hd & _).
  destruct (dump_object_dichotomy sample_decode sample_helper sample_heap
              sample_fuel 23 [] H) as [H23 _].
  destruct (H23 eq_refl) as (_ & _ & He & _).
  destruct (dump_object_dichotomy sample_decode sample_helper exotic_heap
              sample_fuel 6 [] Hx) as [H6 _].
  destruct (H6 eq_refl) as (_ & _ & _ & Hk).
  destruct (dump_object_dichotomy sample_decode sample_helper interrupt_heap
              sample_fuel 3 [] Hi) as (_ & Hint & _).
  split; [|split; [|split; [|split]]].
  - unfold sample_dump_object. rewrite Hc; [|reflexivity ..].
    vm_compute. reflexivity.
  - unfold sample_dump_object. rewrite (Hd eq_refl _ eq_refl eq_refl).
    vm_compute. reflexivity.
  - apply He. right. right. split; reflexivity.
  - apply (Hk [] 5 1 [] ValueError); [reflexivity | reflexivity |].
    left. repeat split; reflexivity.
  - apply (Hint (span "object" ++ "&lt;prop&gt;</span>") 4 KeyboardInterrupt
             [] []); try reflexivity.
    constructor.
Defined.

(** The pages of the samples have their header block, empty for the
    local variables and for the mapping. *)
Lemma object_dump_header_witness :
  (exists rows,
     fragment_of (sample_dump_locals 26)
     = dump_page (escape "Local variables in frame") "" rows)
  /\ (exists title rows,
        fragment_of (sample_dump_object 26) = dump_page title "" rows)
  /\ (exists title header rows,
        fragment_of (sample_dump_object 27) = dump_page title header rows).
Proof.
  destruct (object_dump_header sample_decode sample_helper sample_heap)
    as (H1 & H2 & H3 & H4 & H5 & H6).
  split; [|split].
  - apply (H4 sample_fuel 26 [] _ []). vm_compute. reflexivity.
  - apply (H6 sample_fuel 26 [] _ []); [reflexivity | reflexivity |].
    vm_compute. reflexivity.
  - apply (H5 sample_fuel 27 [] _ []). vm_compute. reflexivity.
Defined.

(* ------------------------------------------------------------------ *)
(** ** Further properties of the engine *)

Lemma append_length (a b : string) :
  String.length (a ++ b) = String.length a + String.length b.
Proof. induction a as [|x a IH]; simpl; [reflexivity | now rewrite IH]. Qed.



Section MoreProperties.

Variable unicode_escape_decode : string -> string.
Variable helper : addr.
Variable h : heap.

Notation repr := (DebugReprGenerator.repr unicode_escape_decode helper h).
Notation dispatch_repr :=
  (DebugReprGenerator.dispatch_repr unicode_escape_decode helper h).
Notation dump_object :=
  (DebugReprGenerator.dump_object unicode_escape_decode helper h).
Notation dump_locals :=
  (DebugReprGenerator.dump_locals unicode_escape_decode helper h).







(** *** Rows and pages *)

(** X5.  [render_object_dump] escapes the title and puts in the row
    names as [html.escape] returns them and the fragments as they are,
    one row per item in the order of the items, the rows separated by a
    line end; without items the table holds the one row that reads
    Nothing.  A name that is an exact [str] goes through the built-in
    escaping, which leaves no markup character; for any other name the
    outcome is that of the [replace] of the object.  When [html.escape]
    raises on a row name, the first such name makes
    [render_object_dump] raise that error instead of returning a
    page. *)
Theorem render_object_dump_rows (items : list (rowkey * string))
    (title : string) (top : option string) :
  (forall rows,
     Forall2 (fun it row => escape_key h (fst it) = Ret (fst row)
                            /\ snd it = snd row) items rows ->
     render_object_dump h items title top
     = Ret (dump_page (escape title) (repr_or_empty top) (html_table rows)))
  /\ html_table [] = "<tr><td><em>Nothing</em>"
  /\ (forall key,
        type_is (lookup h key) py_str = true ->
        escape_key h key = Ret (escape (ob_text (lookup h key)))
        /\ has_markup (escape (ob_text (lookup h key))) = false)
  /\ (forall key,
        type_is (lookup h key) py_str = false ->
        escape_key h key = ob_escape (lookup h key))
  /\ (forall pre k v post e,
        items = (pre ++ (k, v) :: post)%list ->
        forallb (fun it => escapable h (fst it)) pre = true ->
        escape_key h k = Raise e ->
        render_object_dump h items title top = Raise e).
Proof.
  split; [|split; [|split; [|split]]].
  - intros rows HF. apply render_object_dump_escaped.
    exact (html_rows_escaped h items rows [] HF).
  - reflexivity.
  - intros key Hk. split; [|apply escape_clean].
    unfold escape_key. now rewrite Hk.
  - intros key Hk. unfold escape_key. now rewrite Hk.
  - intros pre k v post e -> Hpre Hk.
    now apply render_object_dump_bad_key.
Qed.

(** X6.  Among objects that raise only instances of [Exception] and with
    a sufficient budget: [dump_locals] of a mapping whose iteration
    completes and whose keys [html.escape] accepts returns the page
    titled Local variables in frame, with an empty header block and one
    row per entry in the order of the iteration, made of the escaped
    key and of the fragment of the value; the escaped key of an exact
    [str] is its escaped text.  If the iteration raises, [dump_locals]
    raises that exception; if it completes and [html.escape] raises on
    a key, [dump_locals] raises the error of the first such key. *)
Theorem dump_locals_page (fuel : nat) (d : addr) (st : stack) :
  tame_heap h = true ->
  unvisited h st < fuel ->
  (stop (ob_items (lookup h d)) = None ->
   escapable_keys h (yielded (ob_items (lookup h d))) = true ->
   dump_locals fuel d st
   = Some (Ret (dump_page (escape "Local variables in frame") ""
                  (html_table
                     (map (fun p => (escaped_name h (fst p),
                                     fragment_of (repr fuel (snd p) st)))
                        (yielded (ob_items (lookup h d)))))), st))
  /\ (forall key,
        type_is (lookup h key) py_str = true ->
        escaped_name h key = escape (ob_text (lookup h key)))
  /\ (forall e, stop (ob_items (lookup h d)) = Some e ->
        dump_locals fuel d st = Some (Raise e, st))
  /\ (forall pre key value post e,
        stop (ob_items (lookup h d)) = None ->
        yielded (ob_items (lookup h d)) = (pre ++ (key, value) :: post)%list ->
        escapable_keys h pre = true ->
        escape_key h key = Raise e ->
        dump_locals fuel d st = Some (Raise e, st)).
Proof.
  intros Ht Hf.
  pose proof (dump_locals_tame unicode_escape_decode helper h fuel d st Ht Hf)
    as Hd.
  split; [|split; [|split]].
  - intros Hstop Hk. rewrite Hd, Hstop.
    rewrite render_entries by exact Hk. reflexivity.
  - intros key Hk. unfold escaped_name, escape_key. now rewrite Hk.
  - intros e Hstop. now rewrite Hd, Hstop.
  - intros pre key value post e Hstop Hy Hpre Hk.
    rewrite Hd, Hstop, Hy.
    now rewrite render_entries_bad_key with (e := e).
Qed.

(** *** Text that is escaped *)



(** *** Values that are no containers *)

Lemma dispatch_leaf_outcome (obj : addr) :
  obj = helper \/ is_container (lookup h obj) = false ->
  exists r, forall f recursive st,
    dispatch_repr f obj recursive st = Some (r, st).
Proof.
  intros H.
  destruct (if (obj =? helper)%nat then None else class_error (lookup h obj))
    as [e|] eqn:Hclass.
  { exists (Raise e). intros f recursive st.
    now rewrite (dispatch_repr_eq unicode_escape_decode helper h), Hclass. }
  assert (Ht : exists r, forall f recursive st,
             dispatch_by_type unicode_escape_decode helper h f obj recursive st
             = Some (r, st)).
  { unfold dispatch_by_type.
    destruct (obj =? helper)%nat eqn:E; [eexists; reflexivity|].
    destruct H as [H|H]; [apply Nat.eqb_neq in E; contradiction|].
    unfold is_container, isinstance in *.
    destruct (ty_base (ob_type (lookup h obj))); simpl in *; try discriminate;
      eexists; intros; reflexivity. }
  destruct Ht as [r Hr]. exists r. intros f recursive st.
  now rewrite (dispatch_repr_eq unicode_escape_decode helper h), Hclass.
Qed.

(** X8.  A value that is the help object or no container is rendered in
    one call and to the same outcome whatever the budget and the stack
    of ancestors, which it leaves as it is: it is never replaced by a
    recursion placeholder, even when it is on the stack itself. *)
Theorem scalar_context_free (obj : addr) :
  obj = helper \/ is_container (lookup h obj) = false ->
  exists out, forall fuel st, repr (S fuel) obj st = Some (out, st).
Proof.
  intros H. destruct (dispatch_leaf_outcome obj H) as [r Hr].
  exists (match r with
          | Ret f => Ret f
          | Raise e => if exc_is_Exception e then Ret (fallback_repr e) else Raise e
          end).
  intros fuel st. simpl. unfold try_finally, try_except. rewrite Hr.
  destruct r as [f|e]; [now rewrite removelast_snoc|].
  destruct (exc_is_Exception e); unfold ret; now rewrite removelast_snoc.
Qed.

(** *** The stack and the dumps *)

Lemma contents_loop_keeps (self_repr : addr -> eng string) :
  (forall x, keeps_stack (self_repr x)) ->
  forall entries items, keeps_stack (contents_loop h self_repr entries items).
Proof.
  intros Hs entries. induction entries as [|[key value] rest IH]; intros items.
  - apply keeps_ret.
  - simpl. apply keeps_bind; [apply keeps_lift|]. intros text.
    destruct (negb text); [apply keeps_ret|].
    apply keeps_bind; [apply Hs|]. intros f. apply IH.
Qed.

Lemma details_loop_keeps (self_repr : addr -> eng string) :
  (forall x, keeps_stack (self_repr x)) ->
  forall names items, keeps_stack (details_loop self_repr names items).
Proof.
  intros Hs names. induction names as [|[key attr] rest IH]; intros items.
  - apply keeps_ret.
  - simpl. apply keeps_bind; [|intros row; apply IH].
    apply keeps_try_except; [|intros e; apply keeps_ret].
    apply keeps_bind; [apply keeps_lift|]. intros v.
    apply keeps_bind; [apply Hs|]. intros f. apply keeps_ret.
Qed.

Lemma locals_loop_keeps (self_repr : addr -> eng string) :
  (forall x, keeps_stack (self_repr x)) ->
  forall entries items, keeps_stack (locals_loop self_repr entries items).
Proof.
  intros Hs entries. induction entries as [|[key value] rest IH]; intros items.
  - apply keeps_ret.
  - simpl. apply keeps_bind; [apply Hs|]. intros f. apply IH.
Qed.

Lemma contents_loop_returns (self_repr : addr -> eng string) (st : stack) :
  (forall x, returns (self_repr x) st) ->
  forall entries items, returns (contents_loop h self_repr entries items) st.
Proof.
  intros Hs entries. induction entries as [|[key value] rest IH]; intros items.
  - apply returns_ret.
  - simpl. apply returns_bind; [apply returns_lift|]. intros text.
    destruct (negb text); [apply returns_ret|].
    apply returns_bind; [apply Hs|]. intros f. apply IH.
Qed.

Lemma details_loop_returns (self_repr : addr -> eng string) (st : stack) :
  (forall x, returns (self_repr x) st) ->
  forall names items, returns (details_loop self_repr names items) st.
Proof.
  intros Hs names. induction names as [|[key attr] rest IH]; intros items.
  - apply returns_ret.
  - simpl. apply returns_bind; [|intros row; apply IH].
    apply returns_try_except; [|intros e; apply returns_ret].
    apply returns_bind; [apply returns_lift|]. intros v.
    apply returns_bind; [apply Hs|]. intros f. apply returns_ret.
Qed.

Lemma locals_loop_returns (self_repr : addr -> eng string) (st : stack) :
  (forall x, returns (self_repr x) st) ->
  forall entries items, returns (locals_loop self_repr entries items) st.
Proof.
  intros Hs entries. induction entries as [|[key value] rest IH]; intros items.
  - apply returns_ret.
  - simpl. apply returns_bind; [apply Hs|]. intros f. apply IH.
Qed.

Lemma dump_object_keeps (fuel : nat) (obj : addr) :
  keeps_stack (dump_object fuel obj).
Proof.
  assert (Hr : forall x, keeps_stack (repr fuel x))
    by (intros x; apply repr_keeps).
  unfold DebugReprGenerator.dump_object.
  apply keeps_bind; [apply keeps_lift|]. intros mapping.
  apply keeps_bind.
  - destruct mapping; [|apply keeps_ret].
    apply keeps_bind; [now apply contents_loop_keeps|].
    intros [items|]; [|apply keeps_ret].
    apply keeps_bind; [apply keeps_finish|]. intros _. apply keeps_ret.
  - intros items. apply keeps_bind.
    + destruct items as [items|]; [apply keeps_ret|].
      apply keeps_bind; [apply Hr|]. intros top.
      apply keeps_bind; [apply keeps_lift|]. intros names.
      apply keeps_bind; [now apply details_loop_keeps|]. intros rows.
      apply keeps_ret.
    + intros [[rows title] top]. apply keeps_lift.
Qed.

Lemma dump_locals_keeps (fuel : nat) (d : addr) :
  keeps_stack (dump_locals fuel d).
Proof.
  unfold DebugReprGenerator.dump_locals.
  apply keeps_bind.
  - apply locals_loop_keeps. intros x. apply repr_keeps.
  - intros items. apply keeps_bind; [apply keeps_finish|].
    intros _. apply keeps_lift.
Qed.

(** X9.  [dump_object] and [dump_locals] hand the stack of the generator
    back as they got it, whether they return a page or raise, and they
    come to an end as soon as the budget exceeds the number of objects
    that are not on the stack. *)
Theorem dumps_keep_stack (fuel : nat) (obj : addr) (st : stack) :
  (forall r st', dump_object fuel obj st = Some (r, st') -> st' = st)
  /\ (forall r st', dump_locals fuel obj st = Some (r, st') -> st' = st)
  /\ (unvisited h st < fuel ->
      (exists r, dump_object fuel obj st = Some (r, st))
      /\ (exists r, dump_locals fuel obj st = Some (r, st))).
Proof.
  split; [|split].
  - intros r st'. apply dump_object_keeps.
  - intros r st'. apply dump_locals_keeps.
  - intros Hf.
    assert (Hr : forall x, returns (repr fuel x) st)
      by (intros x; now apply repr_returns).
    split.
    + unfold DebugReprGenerator.dump_object.
      apply returns_bind; [apply returns_lift|]. intros mapping.
      apply returns_bind.
      * destruct mapping; [|apply returns_ret].
        apply returns_bind; [now apply contents_loop_returns|].
        intros [items|]; [|apply returns_ret].
        apply returns_bind; [apply returns_finish|].
        intros _. apply returns_ret.
      * intros items. apply returns_bind.
        -- destruct items as [items|]; [apply returns_ret|].
           apply returns_bind; [apply Hr|]. intros top.
           apply returns_bind; [apply returns_lift|]. intros names.
           apply returns_bind; [now apply details_loop_returns|].
           intros rows. apply returns_ret.
        -- intros [[rows title] top]. apply returns_lift.
    + unfold DebugReprGenerator.dump_locals.
      apply returns_bind; [now apply locals_loop_returns|].
      intros items. apply returns_bind; [apply returns_finish|].
      intros _. apply returns_lift.
Qed.

(** *** Numbers *)


End MoreProperties.

(* ------------------------------------------------------------------ *)
(** ** The path in the name of the profile file *)

Lemma lacks_app (c : ascii) (a b : string) :
  lacks c (a ++ b) = lacks c a && lacks c b.
Proof.
  induction a as [|x a IH]; simpl; [reflexivity|].
  now rewrite IH, andb_assoc.
Qed.

Lemma replace_char_app (old : ascii) (new a b : string) :
  replace_char old new (a ++ b)
  = replace_char old new a ++ replace_char old new b.
Proof.
  induction a as [|x a IH]; simpl; [reflexivity|].
  now rewrite IH, append_assoc.
Qed.

Lemma replace_char_lacks (old : ascii) (new s : string) :
  lacks old new = true -> lacks old (replace_char old new s) = true.
Proof.
  intros Hn. induction s as [|c s IH]; simpl; [reflexivity|].
  rewrite lacks_app, IH, andb_true_r.
  destruct (c =? old)%char eqn:E; [assumption|].
  simpl. now rewrite E.
Qed.

Lemma replace_char_id (old : ascii) (new s : string) :
  lacks old s = true -> replace_char old new s = s.
Proof.
  induction s as [|c s IH]; simpl; [reflexivity|].
  intros H. apply andb_true_iff in H. destruct H as [Hc Hs].
  apply negb_true_iff in Hc. rewrite Hc, IH by assumption. reflexivity.
Qed.

Lemma mem_char_one (c d : ascii) : mem_char c (String d "") = (c =? d)%char.
Proof. simpl. apply orb_false_r. Qed.

Lemma lstrip_chars_id (d : ascii) (s : string) :
  lacks d s = true -> lstrip_chars (String d "") s = s.
Proof.
  destruct s as [|c s]; [reflexivity|]. simpl. intros H.
  apply andb_true_iff in H. destruct H as [Hc _].
  apply negb_true_iff in Hc. now rewrite orb_false_r, Hc.
Qed.

Lemma rstrip_chars_id (d : ascii) (s : string) :
  lacks d s = true -> rstrip_chars (String d "") s = s.
Proof.
  induction s as [|c s IH]; [reflexivity|]. simpl. intros H.
  apply andb_true_iff in H. destruct H as [Hc Hs].
  apply negb_true_iff in Hc. rewrite (IH Hs), orb_false_r, Hc.
  destruct s; reflexivity.
Qed.

Lemma strip_chars_id (d : ascii) (s : string) :
  lacks d s = true -> strip_chars (String d "") s = s.
Proof.
  intros H. unfold strip_chars. now rewrite lstrip_chars_id, rstrip_chars_id.
Qed.

(** The path of the file name, from the text of PATH_INFO. *)
Lemma filename_path_of (env : environ) (path_info : string) :
  env_get env "PATH_INFO" = Some path_info ->
  filename_path env
  = Ret (if (replace_char "/" "." (strip_chars "/" path_info) =? "")%string
         then "root"
         else replace_char "/" "." (strip_chars "/" path_info)).
Proof. intros H. unfold filename_path. now rewrite H. Qed.

(** X11.  Whatever the text of PATH_INFO, the path that goes into the
    name of the profile file is not empty and holds no slash; and it is
    stable: taken as PATH_INFO again, it gives itself. *)
Theorem filename_path_safe (env env' : environ) (path_info : string) :
  env_get env "PATH_INFO" = Some path_info ->
  exists path,
    filename_path env = Ret path
    /\ path <> ""
    /\ lacks "/" path = true
    /\ filename_path (("PATH_INFO", path) :: env') = Ret path.
Proof.
  intros H. rewrite (filename_path_of env path_info H).
  set (q := replace_char "/" "." (strip_chars "/" path_info)).
  assert (Hq : lacks "/" q = true) by (apply replace_char_lacks; reflexivity).
  assert (Hstable : forall p, p <> "" -> lacks "/" p = true ->
            filename_path (("PATH_INFO", p) :: env') = Ret p).
  { intros p Hp Hl. unfold filename_path. simpl.
    rewrite strip_chars_id, replace_char_id by assumption.
    destruct (p =? "")%string eqn:E; [|reflexivity].
    apply String.eqb_eq in E. contradiction. }
  destruct (q =? "")%string eqn:E.
  - exists "root". split; [reflexivity|]. split; [discriminate|].
    split; [reflexivity|]. apply Hstable; [discriminate | reflexivity].
  - exists q. apply String.eqb_neq in E. repeat split; auto.
Qed.

Lemma lstrip_slashes (n : nat) (s : string) :
  lstrip_chars "/" (join "" (repeat "/" n) ++ s) = lstrip_chars "/" s.
Proof.
  induction n as [|n IH]; [reflexivity|].
  simpl repeat. rewrite join_empty_cons, append_assoc. simpl. exact IH.
Qed.

Lemma rstrip_slashes_only (n : nat) :
  rstrip_chars "/" (join "" (repeat "/" n)) = "".
Proof.
  induction n as [|n IH]; [reflexivity|].
  simpl repeat. rewrite join_empty_cons. simpl. now rewrite IH.
Qed.

Lemma rstrip_chars_app (chars a b : string) :
  rstrip_chars chars b = "" ->
  rstrip_chars chars (a ++ b) = rstrip_chars chars a.
Proof.
  intros Hb. induction a as [|c a IH]; simpl; [assumption|].
  now rewrite IH.
Qed.

(** X12.  A PATH_INFO that is empty or made of slashes only gives the
    path root. *)
Theorem filename_path_root (env : environ) (n : nat) :
  env_get env "PATH_INFO" = Some (join "" (repeat "/" n)) ->
  filename_path env = Ret "root".
Proof.
  intros H. rewrite (filename_path_of env _ H).
  unfold strip_chars.
  replace (join "" (repeat "/" n)) with (join "" (repeat "/" n) ++ "")
    by apply append_nil_r.
  rewrite lstrip_slashes. reflexivity.
Qed.

Lemma join_slash_lacks (segments : list string) :
  Forall (fun s => lacks "/" s = true) segments ->
  replace_char "/" "." (join "/" segments) = join "." segments.
Proof.
  induction 1 as [|s rest Hs Hrest IH]; [reflexivity|].
  destruct rest as [|s2 rest].
  - simpl. now apply replace_char_id.
  - rewrite !join_cons, !replace_char_app, IH.
    rewrite (replace_char_id _ _ s Hs). reflexivity.
Qed.

Lemma lstrip_chars_plain (chars : string) (c : ascii) (s : string) :
  mem_char c chars = false -> lstrip_chars chars (String c s) = String c s.
Proof. intros H. simpl. now rewrite H. Qed.

Lemma rstrip_chars_plain (chars s : string) (c : ascii) :
  mem_char c chars = false ->
  rstrip_chars chars (s ++ String c "") = s ++ String c "".
Proof.
  intros H. induction s as [|x s IH]; simpl.
  - now rewrite H.
  - rewrite IH. destruct (s ++ String c "") eqn:E; [|reflexivity].
    destruct s; discriminate.
Qed.

Lemma nonempty_ends (s : string) :
  s <> "" -> exists body c, s = body ++ String c "".
Proof.
  induction s as [|x s IH]; [congruence|]. intros _.
  destruct s as [|y s].
  - now exists "", x.
  - destruct IH as (body & c & E); [discriminate|].
    exists (String x body), c. simpl. now rewrite E.
Qed.

Lemma join_ends (sep : string) (segments : list string) (final : string)
    (c : ascii) :
  exists body, join sep (snoc segments (final ++ String c ""))
               = body ++ String c "".
Proof.
  induction segments as [|s rest IH].
  - now exists final.
  - destruct IH as [body E]. change (snoc (s :: rest) ?x) with (s :: snoc rest x).
    rewrite join_cons_nonempty by apply snoc_nonempty. rewrite E.
    exists (s ++ sep ++ body). now rewrite !append_assoc.
Qed.

Lemma filename_path_joined (env : environ) (first : string)
    (segments : list string) (leading trailing : nat) :
  Forall (fun s => s <> "" /\ lacks "/" s = true) (first :: segments) ->
  env_get env "PATH_INFO"
  = Some (join "" (repeat "/" leading) ++ join "/" (first :: segments)
          ++ join "" (repeat "/" trailing)) ->
  filename_path env = Ret (join "." (first :: segments)).
Proof.
  intros Hseg H. rewrite (filename_path_of env _ H).
  assert (Hl : Forall (fun s => lacks "/" s = true) (first :: segments)).
  { eapply Forall_impl; [|exact Hseg]. now intros s [_ Hs]. }
  assert (Hfirst : exists c t, join "/" (first :: segments) = String c t
                               /\ (c =? "/")%char = false).
  { inversion Hseg as [|? ? [Hne Hlf] _]; subst.
    destruct first as [|c f]; [congruence|].
    simpl in Hlf. apply andb_true_iff in Hlf. destruct Hlf as [Hc _].
    apply negb_true_iff in Hc.
    destruct segments; simpl; eauto. }
  assert (Hlast : exists body c, join "/" (first :: segments) = body ++ String c ""
                                 /\ (c =? "/")%char = false).
  { destruct (@exists_last _ (first :: segments)) as (init & last & E);
      [discriminate|].
    rewrite E in Hseg |- *.
    apply Forall_app in Hseg. destruct Hseg as [_ Hlast].
    inversion Hlast as [|? ? [Hne Hlf] _]; subst.
    destruct (nonempty_ends last Hne) as (lb & c & ->).
    destruct (join_ends "/" init lb c) as [body Eb]. unfold snoc in Eb.
    exists body, c. split; [exact Eb|].
    rewrite lacks_app in Hlf. apply andb_true_iff in Hlf.
    destruct Hlf as [_ Hc]. simpl in Hc. rewrite andb_true_r in Hc.
    now apply negb_true_iff in Hc. }
  assert (Hstrip : strip_chars "/"
                     (join "" (repeat "/" leading) ++ join "/" (first :: segments)
                      ++ join "" (repeat "/" trailing))
                   = join "/" (first :: segments)).
  { unfold strip_chars. rewrite lstrip_slashes.
    destruct Hfirst as (c & t & E & Hc). rewrite E.
    change (String c t ++ join "" (repeat "/" trailing))
      with (String c (t ++ join "" (repeat "/" trailing))).
    rewrite lstrip_chars_plain by (simpl; now rewrite Hc).
    change (String c (t ++ join "" (repeat "/" trailing)))
      with (String c t ++ join "" (repeat "/" trailing)).
    rewrite rstrip_chars_app by apply rstrip_slashes_only.
    rewrite <- E.
    destruct Hlast as (body & c' & E' & Hc'). rewrite E'.
    apply rstrip_chars_plain. simpl. now rewrite Hc'. }
  rewrite Hstrip, (join_slash_lacks _ Hl).
  destruct (join "." (first :: segments) =? "")%string eqn:E; [|reflexivity].
  apply String.eqb_eq in E.
  inversion Hseg as [|? ? [Hne _] _]; subst.
  destruct first; [congruence|]. destruct segments; discriminate.
Qed.

(** X13.  The name of the profile file needs REQUEST_METHOD and
    PATH_INFO: without REQUEST_METHOD the lookup raises [KeyError],
    whatever PATH_INFO is; with it and without PATH_INFO the call of
    [strip] on [None] raises [AttributeError], where the report to the
    stream takes the empty text; with both, the method is taken as it
    is, slashes included. *)
Theorem filename_fields_need_keys (env : environ) :
  (env_get env "REQUEST_METHOD" = None ->
   filename_fields env = Raise (KeyError_of "REQUEST_METHOD"))
  /\ (forall method,
        env_get env "REQUEST_METHOD" = Some method ->
        env_get env "PATH_INFO" = None ->
        filename_fields env = Raise AttributeError_strip
        /\ stream_path_info env = "")
  /\ (forall method path_info,
        env_get env "REQUEST_METHOD" = Some method ->
        env_get env "PATH_INFO" = Some path_info ->
        exists path,
          filename_fields env = Ret (method, path)
          /\ filename_path env = Ret path
          /\ stream_path_info env = path_info).
Proof.
  unfold filename_fields, stream_path_info. split; [|split].
  - intros H. now rewrite H.
  - intros method Hm Hp. rewrite Hm. unfold filename_path. now rewrite Hp.
  - intros method path_info Hm Hp. rewrite Hm, Hp.
    rewrite (filename_path_of env path_info Hp). eexists. repeat split.
Qed.

(** X14.  For a PATH_INFO made of segments that are not empty and hold
    no slash, separated by one slash, after any number of leading
    slashes and before any number of trailing ones, the path of the file
    name is the segments joined by dots. *)
Theorem filename_path_segments (env : environ) (first : string)
    (segments : list string) (leading trailing : nat) :
  Forall (fun s => s <> "" /\ lacks "/" s = true) (first :: segments) ->
  env_get env "PATH_INFO"
  = Some (join "" (repeat "/" leading) ++ join "/" (first :: segments)
          ++ join "" (repeat "/" trailing)) ->
  filename_path env = Ret (join "." (first :: segments)).
Proof. apply filename_path_joined. Qed.

(** X15.  The path of the file name does not tell a slash from a dot:
    the request paths /u/v and /u.v get the same one. *)
Theorem filename_path_collision (env1 env2 : environ) (u v : string) :
  u <> "" -> v <> "" -> lacks "/" u = true -> lacks "/" v = true ->
  env_get env1 "PATH_INFO" = Some ("/" ++ u ++ "/" ++ v) ->
  env_get env2 "PATH_INFO" = Some ("/" ++ u ++ "." ++ v) ->
  "/" ++ u ++ "/" ++ v <> "/" ++ u ++ "." ++ v
  /\ filename_path env1 = Ret (u ++ "." ++ v)
  /\ filename_path env2 = Ret (u ++ "." ++ v).
Proof.
  intros Hu Hv Hlu Hlv H1 H2. split; [|split].
  - intros E. injection E as E. clear - E.
    induction u as [|c u IH]; simpl in E; [discriminate|].
    injection E as E. auto.
  - apply (filename_path_joined env1 u [v] 1 0).
    + repeat constructor; assumption.
    + rewrite H1. simpl. now rewrite append_nil_r.
  - apply (filename_path_joined env2 (u ++ "." ++ v) [] 1 0).
    + repeat constructor.
      * destruct u; [congruence | discriminate].
      * rewrite !lacks_app, Hlu, Hlv. reflexivity.
    + rewrite H2. simpl. now rewrite append_nil_r.
Qed.

(* ------------------------------------------------------------------ *)
(** ** The paragraphs of the help text *)

Lemma is_break_cases (c : ascii) :
  is_break c = (CR =? c)%char || (LF =? c)%char.
Proof. unfold is_break. now rewrite (Ascii.eqb_sym c CR), (Ascii.eqb_sym c LF). Qed.

(** One line end at the start of a text. *)
Lemma line_end_match {A : Type} (k : string -> option A) (s : string) :
  rmatch line_end s k
  = match s with
    | EmptyString => None
    | String c s' =>
        if (CR =? c)%char then
          match match s' with
                | String c2 s'' => if (LF =? c2)%char then k s'' else None
                | EmptyString => None
                end with
          | Some x => Some x
          | None => k s'
          end
        else if (LF =? c)%char then k s' else None
    end.
Proof.
  destruct s as [|c s']; [reflexivity|].
  unfold line_end. cbn [rmatch].
  destruct (CR =? c)%char eqn:E1.
  - apply Ascii.eqb_eq in E1. subst c.
    replace (LF =? CR)%char with false by reflexivity.
    match goal with
    | |- match ?m with _ => _ end = _ => destruct m; [reflexivity|]
    end.
    destruct (k s'); reflexivity.
  - destruct (LF =? c)%char; reflexivity.
Qed.

(** The repetition of [_paragraph_re] after [count] line ends. *)
Lemma repeat_plain (s : string) (fuel count : nat) :
  starts_plain s = true ->
  repeat_from (rmatch line_end) 2 Some fuel count s
  = if (2 <=? count)%nat then Some s else None.
Proof.
  intros Hs. destruct fuel as [|fuel]; [reflexivity|].
  cbn [repeat_from]. rewrite line_end_match.
  destruct s as [|c s']; [reflexivity|].
  simpl in Hs. apply negb_true_iff in Hs. rewrite is_break_cases in Hs.
  apply orb_false_iff in Hs. destruct Hs as [H1 H2]. now rewrite H1, H2.
Qed.

Lemma shorter_tail (c : ascii) (s : string) :
  (String.length s <? String.length (String c s))%nat = true.
Proof. apply Nat.ltb_lt. simpl. lia. Qed.

Lemma shorter_tail2 (c c2 : ascii) (s : string) :
  (String.length s <? String.length (String c (String c2 s)))%nat = true.
Proof. apply Nat.ltb_lt. simpl. lia. Qed.

Lemma repeat_more (n : nat) :
  forall run rest fuel count,
    String.length run <= n ->
    all_breaks run = true -> starts_plain rest = true ->
    String.length run <= fuel ->
    1 <= count -> 2 <= count + String.length run ->
    repeat_from (rmatch line_end) 2 Some fuel count (run ++ rest) = Some rest.
Proof.
  induction n as [|n IH]; intros run rest fuel count Hn Hrun Hrest Hfuel Hc Hlen.
  - destruct run; [|simpl in Hn; lia].
    simpl. rewrite repeat_plain by assumption.
    simpl in Hlen. replace (2 <=? count)%nat with true; [reflexivity|].
    symmetry. apply Nat.leb_le. lia.
  - destruct run as [|c run'].
    + simpl. rewrite repeat_plain by assumption.
      simpl in Hlen. replace (2 <=? count)%nat with true; [reflexivity|].
      symmetry. apply Nat.leb_le. lia.
    + simpl in Hn, Hrun, Hfuel. apply andb_true_iff in Hrun.
      destruct Hrun as [Hcb Hrun'].
      destruct fuel as [|fuel]; [lia|].
      assert (Htail : repeat_from (rmatch line_end) 2 Some fuel (S count)
                        (run' ++ rest) = Some rest).
      { apply IH; try assumption; lia. }
      change (String c run' ++ rest) with (String c (run' ++ rest)).
      cbn [repeat_from]. rewrite line_end_match.
      rewrite is_break_cases in Hcb.
      destruct (CR =? c)%char eqn:E1.
      * destruct run' as [|c2 run''].
        -- cbn [append]. rewrite shorter_tail.
           cbn [append] in Htail. rewrite Htail.
           destruct rest as [|r0 rest']; [reflexivity|].
           simpl in Hrest. apply negb_true_iff in Hrest.
           rewrite is_break_cases in Hrest. apply orb_false_iff in Hrest.
           destruct Hrest as [_ H2]. now rewrite H2.
        -- change (String c2 run'' ++ rest) with (String c2 (run'' ++ rest)).
           change (String c2 run'' ++ rest) with (String c2 (run'' ++ rest)) in Htail.
           rewrite shorter_tail, shorter_tail2, Htail.
           destruct (LF =? c2)%char; [|reflexivity].
           simpl in Hrun'. apply andb_true_iff in Hrun'.
           destruct Hrun' as [_ Hrun''].
           rewrite IH; [reflexivity | ..]; try assumption; simpl in *; lia.
      * cbn [orb] in Hcb. rewrite Hcb, shorter_tail, Htail. reflexivity.
Qed.

Lemma repeat_start (run rest : string) (fuel : nat) :
  all_breaks run = true -> starts_plain rest = true ->
  2 <= String.length run -> String.length run <= fuel ->
  repeat_from (rmatch line_end) 2 Some fuel 0 (run ++ rest) = Some rest.
Proof.
  intros Hrun Hrest Hlen Hfuel.
  destruct run as [|c [|c2 run'']]; simpl in Hlen; try lia.
  destruct fuel as [|fuel]; [simpl in Hfuel; lia|].
  simpl in Hrun, Hfuel.
  apply andb_true_iff in Hrun. destruct Hrun as [Hcb Hrun'].
  apply andb_true_iff in Hrun'. destruct Hrun' as [Hc2 Hrun''].
  assert (Htail : repeat_from (rmatch line_end) 2 Some fuel 1
                    (String c2 run'' ++ rest) = Some rest).
  { apply repeat_more with (n := String.length (String c2 run''));
      simpl; try lia; try assumption.
    now rewrite Hc2, Hrun''. }
  change (String c (String c2 run'') ++ rest)
    with (String c (String c2 (run'' ++ rest))).
  change (String c2 run'' ++ rest) with (String c2 (run'' ++ rest)) in Htail.
  cbn [repeat_from]. rewrite line_end_match.
  rewrite shorter_tail, shorter_tail2, Htail.
  rewrite is_break_cases in Hcb.
  destruct (CR =? c)%char eqn:E1.
  - destruct (LF =? c2)%char; [|reflexivity].
    destruct run'' as [|c3 run3].
    + cbn [append]. rewrite repeat_plain by assumption. reflexivity.
    + rewrite repeat_more with (n := String.length (String c3 run3));
        [reflexivity | ..]; try assumption; simpl in *; lia.
  - cbn [orb] in Hcb. now rewrite Hcb.
Qed.

Lemma repeat_single (c : ascii) (rest : string) (fuel : nat) :
  starts_plain rest = true ->
  repeat_from (rmatch line_end) 2 Some fuel 0 (String c rest) = None.
Proof.
  intros Hrest. destruct fuel as [|fuel]; [reflexivity|].
  cbn [repeat_from]. rewrite line_end_match, shorter_tail.
  rewrite repeat_plain by assumption. simpl Nat.leb.
  destruct (CR =? c)%char.
  - destruct rest as [|r0 rest']; [reflexivity|].
    simpl in Hrest. apply negb_true_iff in Hrest.
    rewrite is_break_cases in Hrest. apply orb_false_iff in Hrest.
    destruct Hrest as [_ H2]. now rewrite H2.
  - destruct (LF =? c)%char; reflexivity.
Qed.

Lemma paragraph_match (run rest : string) :
  all_breaks run = true -> 2 <= String.length run -> starts_plain rest = true ->
  rmatch _paragraph_re (run ++ rest) Some = Some rest.
Proof.
  intros Hrun Hlen Hrest. unfold _paragraph_re. cbn [rmatch].
  apply repeat_start; try assumption. rewrite append_length. lia.
Qed.

Lemma paragraph_no_match_plain (s : string) :
  starts_plain s = true -> rmatch _paragraph_re s Some = None.
Proof.
  intros Hs. unfold _paragraph_re. cbn [rmatch].
  now rewrite repeat_plain by assumption.
Qed.

Lemma paragraph_no_match_single (c : ascii) (rest : string) :
  starts_plain rest = true -> rmatch _paragraph_re (String c rest) Some = None.
Proof.
  intros Hs. unfold _paragraph_re. cbn [rmatch]. now apply repeat_single.
Qed.

(** X16.  At the start of a text [_paragraph_re] matches the whole run
    of CR and LF characters there when the run has two characters or
    more, among them CR LF alone, which counts as two line ends; it
    matches nothing when the run has one character or none. *)
Theorem paragraph_re_matches_runs :
  (forall run rest,
     all_breaks run = true -> 2 <= String.length run ->
     starts_plain rest = true ->
     rmatch _paragraph_re (run ++ rest) Some = Some rest)
  /\ (forall c rest,
        starts_plain rest = true ->
        rmatch _paragraph_re (String c rest) Some = None)
  /\ (forall s, starts_plain s = true -> rmatch _paragraph_re s Some = None).
Proof.
  split; [|split].
  - apply paragraph_match.
  - apply paragraph_no_match_single.
  - apply paragraph_no_match_plain.
Qed.

(** With budget above the length of the text, [split_from] does not
    depend on the budget. *)
Lemma split_fuel (r : regex) (n : nat) :
  forall s piece f1 f2,
    String.length s <= n -> String.length s < f1 -> String.length s < f2 ->
    split_from f1 r piece s = split_from f2 r piece s.
Proof.
  induction n as [|n IH]; intros s piece f1 f2 Hn H1 H2;
    (destruct f1 as [|f1]; [lia|]); (destruct f2 as [|f2]; [lia|]);
    cbn [split_from].
  - destruct s; [|simpl in Hn; lia].
    destruct (rmatch r "" Some) as [rest|]; [|reflexivity].
    replace (String.length rest <? String.length "")%nat with false;
      [reflexivity|]. symmetry. apply Nat.ltb_ge. simpl. lia.
  - assert (Hadv :
      match s with
      | "" => [piece]
      | String c s' => split_from f1 r (piece ++ String c "") s'
      end
      = match s with
        | "" => [piece]
        | String c s' => split_from f2 r (piece ++ String c "") s'
        end).
    { destruct s as [|c s']; [reflexivity|].
      simpl in Hn, H1, H2. apply IH; lia. }
    destruct (rmatch r s Some) as [rest|]; [|exact Hadv].
    destruct (String.length rest <? String.length s)%nat eqn:E; [|exact Hadv].
    apply Nat.ltb_lt in E. f_equal. apply IH; lia.
Qed.

Lemma split_from_nonempty (r : regex) (fuel : nat) :
  forall piece s, split_from fuel r piece s <> [].
Proof.
  induction fuel as [|fuel IH]; intros piece s; [discriminate|].
  cbn [split_from].
  assert (Hadv : match s with
                 | "" => [piece]
                 | String c s' => split_from fuel r (piece ++ String c "") s'
                 end <> []).
  { destruct s; [discriminate | apply IH]. }
  destruct (rmatch r s Some) as [rest|]; [|exact Hadv].
  destruct (String.length rest <? String.length s)%nat;
    [discriminate | exact Hadv].
Qed.

Lemma no_double_break_tail (c : ascii) (s : string) :
  no_double_break (String c s) = true ->
  no_double_break s = true /\ (is_break c = true -> starts_plain s = true).
Proof.
  destruct s as [|c2 s']; [now split|].
  cbn [no_double_break]. intros H. apply andb_true_iff in H.
  destruct H as [H1 H2]. split; [exact H2|].
  intros Hc. rewrite Hc in H1. simpl in *. exact H1.
Qed.

(** A text without two line ends in a row is not split. *)
Lemma split_plain (s : string) :
  forall piece fuel,
    no_double_break s = true -> String.length s < fuel ->
    split_from fuel _paragraph_re piece s = [piece ++ s].
Proof.
  induction s as [|c s IH]; intros piece fuel Hs Hf;
    (destruct fuel as [|fuel]; [lia|]); cbn [split_from].
  - rewrite paragraph_no_match_plain by reflexivity.
    now rewrite append_nil_r.
  - destruct (no_double_break_tail c s Hs) as [Hs' Hplain].
    assert (Hno : rmatch _paragraph_re (String c s) Some = None).
    { destruct (is_break c) eqn:Ec.
      - apply paragraph_no_match_single. now apply Hplain.
      - apply paragraph_no_match_plain. simpl. now rewrite Ec. }
    rewrite Hno. simpl in Hf. rewrite IH by (assumption || lia).
    now rewrite append_assoc.
Qed.

Lemma ends_plain_tail (c : ascii) (s : string) :
  ends_plain (String c s) = true ->
  ends_plain s = true /\ (is_break c = true -> s <> "").
Proof.
  destruct s as [|c2 s'].
  - simpl. intros H. split; [reflexivity|]. intros Hc. now rewrite Hc in H.
  - intros H. split; [exact H | discriminate].
Qed.

(** A text is split at its first run of two line ends or more. *)
Lemma split_break (a : string) :
  forall piece fuel run rest,
    no_double_break a = true -> ends_plain a = true ->
    all_breaks run = true -> 2 <= String.length run ->
    starts_plain rest = true ->
    String.length (a ++ run ++ rest) < fuel ->
    split_from fuel _paragraph_re piece (a ++ run ++ rest)
    = (piece ++ a) :: split_from (S (String.length rest)) _paragraph_re "" rest.
Proof.
  induction a as [|c a IH]; intros piece fuel run rest Ha He Hrun Hlen Hrest Hf;
    (destruct fuel as [|fuel]; [lia|]).
  - remember (split_from (S (String.length rest)) _paragraph_re "" rest)
      as pieces eqn:Hpieces.
    cbn [split_from]. cbn [append] in *.
    rewrite paragraph_match by assumption.
    rewrite append_length in *.
    replace (String.length rest <? String.length run + String.length rest)%nat
      with true by (symmetry; apply Nat.ltb_lt; lia).
    rewrite append_nil_r. f_equal. subst pieces.
    apply split_fuel with (n := String.length rest); lia.
  - remember (split_from (S (String.length rest)) _paragraph_re "" rest)
      as pieces eqn:Hpieces.
    cbn [split_from].
    destruct (no_double_break_tail c a Ha) as [Ha' Hplain].
    destruct (ends_plain_tail c a He) as [He' Hne].
    change (String c a ++ run ++ rest) with (String c (a ++ run ++ rest)) in *.
    assert (Hno : rmatch _paragraph_re (String c (a ++ run ++ rest)) Some = None).
    { destruct (is_break c) eqn:Ec.
      - apply paragraph_no_match_single.
        specialize (Hplain eq_refl). specialize (Hne eq_refl).
        destruct a as [|c2 a']; [congruence | exact Hplain].
      - apply paragraph_no_match_plain. simpl. now rewrite Ec. }
    rewrite Hno. simpl in Hf.
    rewrite IH by (assumption || lia). subst pieces.
    now rewrite append_assoc.
Qed.

(** X17.  [_paragraph_re.split] leaves a text without two line-end
    characters in a row in one piece; and it cuts a text at its first
    run of two line-end characters or more, which it drops: the piece
    before the run, then the pieces of what follows the run. *)
Theorem paragraph_split :
  (forall s, no_double_break s = true -> re_split _paragraph_re s = [s])
  /\ (forall a run rest,
        no_double_break a = true -> ends_plain a = true ->
        all_breaks run = true -> 2 <= String.length run ->
        starts_plain rest = true ->
        re_split _paragraph_re (a ++ run ++ rest)
        = a :: re_split _paragraph_re rest).
Proof.
  split.
  - intros s Hs. unfold re_split. rewrite split_plain by (assumption || lia).
    reflexivity.
  - intros a run rest Ha He Hrun Hlen Hrest. unfold re_split.
    rewrite split_break by (assumption || lia). reflexivity.
Qed.

(** [HELP_HTML % {...}] *)
Lemma help_template (title text : string) :
  percent_format HELP_HTML [("title", title); ("text", text)]
  = Some (help_page title text).
Proof. reflexivity. Qed.

(** X18.  For a help text without two line-end characters in a row,
    [_Helper.__call__] writes the page with the title Help and the whole
    text; for a help text that is cut at a first run of two line-end
    characters or more, it writes the page with the piece before the
    run as title and the pieces after it, joined by two LF, as text.
    Title and text are written as they are, unescaped. *)
Theorem helper_page :
  (forall rv,
     no_double_break rv = true ->
     Helper_call (Some rv) = Ret (help_page "Help" rv))
  /\ (forall title run body,
        no_double_break title = true -> ends_plain title = true ->
        all_breaks run = true -> 2 <= String.length run ->
        starts_plain body = true ->
        Helper_call (Some (title ++ run ++ body))
        = Ret (help_page title
                 (join (nl ++ nl) (re_split _paragraph_re body)))).
Proof.
  split.
  - intros rv Hrv. unfold Helper_call, re_split.
    rewrite split_plain by (assumption || lia). cbv zeta.
    cbn [length Nat.ltb Nat.leb append].
    now rewrite help_template.
  - intros title run body Ht He Hrun Hlen Hbody.
    pose proof (split_from_nonempty _paragraph_re (S (String.length body)) "" body)
      as Hne.
    unfold Helper_call.
    replace (re_split _paragraph_re (title ++ run ++ body))
      with (title :: re_split _paragraph_re body)
      by (unfold re_split; rewrite split_break by (assumption || lia);
          reflexivity).
    fold (re_split _paragraph_re body) in Hne. cbv zeta.
    destruct (re_split _paragraph_re body) as [|p ps]; [congruence|].
    cbn [length Nat.ltb Nat.leb].
    now rewrite help_template.
Qed.

(* ------------------------------------------------------------------ *)
(** ** The further properties at the samples *)





(** A page of two rows, named by the texts <b> and x; and a row named
    by an instance of a [str] subclass before a row named by a [bytes]
    object, on which [html.escape] raises. *)
Lemma render_object_dump_rows_witness :
  render_object_dump sample_heap
    [(16, "<i>1</i>"); (24, "2")] "Details for <x>" None
  = Ret (dump_page "Details for &lt;x&gt;" ""
           (html_table [("&lt;b&gt;", "<i>1</i>"); ("x", "2")]))
  /\ render_object_dump exotic_heap [(8, "1"); (2, "2"); (4, "3")] "T" None
     = Raise TypeError_replace.
Proof.
  split.
  - apply (proj1 (render_object_dump_rows sample_heap
                    [(16, "<i>1</i>"); (24, "2")] "Details for <x>" None)
             [("&lt;b&gt;", "<i>1</i>"); ("x", "2")]).
    repeat constructor.
  - apply (proj2 (proj2 (proj2 (proj2
             (render_object_dump_rows exotic_heap
                [(8, "1"); (2, "2"); (4, "3")] "T" None))))
             [(8, "1")] 2 "2" [(4, "3")]);
      reflexivity.
Defined.

(** The page of the local variables x and y; the mapping with a [bytes]
    key. *)
Lemma dump_locals_page_witness :
  sample_dump_locals 26
  = Some (Ret (dump_page "Local variables in frame" ""
                 (html_table [("x", sample_fragment [] 2);
                              ("y", sample_fragment [] 12)])), [])
  /\ dump_locals sample_decode sample_helper exotic_heap sample_fuel 3 []
     = Some (Raise TypeError_replace, []).
Proof.
  assert (H : unvisited sample_heap [] < sample_fuel) by (vm_compute; lia).
  assert (Hx : unvisited exotic_heap [] < sample_fuel) by (vm_compute; lia).
  destruct (dump_locals_page sample_decode sample_helper sample_heap
              sample_fuel 26 [] eq_refl H) as [H26 _].
  destruct (dump_locals_page sample_decode sample_helper exotic_heap
              sample_fuel 3 [] eq_refl Hx) as (_ & _ & _ & H3).
  split.
  - unfold sample_dump_locals. rewrite (H26 eq_refl eq_refl).
    vm_compute. reflexivity.
  - apply (H3 [] 2 1 []); reflexivity.
Defined.


(** The member of the enumeration, whatever the stack. *)
Lemma scalar_context_free_witness :
  exists out, forall fuel st,
    repr sample_decode sample_helper sample_heap (S fuel) 18 st = Some (out, st).
Proof.
  exact (scalar_context_free sample_decode sample_helper sample_heap 18
           (or_intror eq_refl)).
Defined.

(** The dumps of the sample object with attributes come to an end. *)
Lemma dumps_keep_stack_witness :
  (exists r, dump_object sample_decode sample_helper sample_heap sample_fuel
               27 [] = Some (r, []))
  /\ (exists r, dump_locals sample_decode sample_helper sample_heap sample_fuel
                  27 [] = Some (r, [])).
Proof.
  assert (H : unvisited sample_heap [] < sample_fuel) by (vm_compute; lia).
  exact (proj2 (proj2 (dumps_keep_stack sample_decode sample_helper sample_heap
                         sample_fuel 27 [])) H).
Defined.


(** The request for /api/v1/users/ *)
Lemma filename_path_safe_witness :
  exists path,
    filename_path sample_environ = Ret path
    /\ path <> ""
    /\ lacks "/" path = true
    /\ filename_path [("PATH_INFO", path)] = Ret path.
Proof.
  exact (filename_path_safe sample_environ [] "/api/v1/users/" eq_refl).
Defined.

Lemma filename_path_root_witness :
  filename_path [("PATH_INFO", "///")] = Ret "root".
Proof.
  exact (filename_path_root [("PATH_INFO", "///")] 3 eq_refl).
Defined.

Lemma filename_path_segments_witness :
  filename_path sample_environ = Ret "api.v1.users".
Proof.
  apply (filename_path_segments sample_environ "api" ["v1"; "users"] 1 1);
    [|reflexivity].
  repeat constructor; discriminate.
Defined.

(** A request without REQUEST_METHOD, and one without PATH_INFO. *)
Lemma filename_fields_need_keys_witness :
  filename_fields [("PATH_INFO", "/a")] = Raise (KeyError_of "REQUEST_METHOD")
  /\ filename_fields [("REQUEST_METHOD", "GET")] = Raise AttributeError_strip
  /\ stream_path_info [("REQUEST_METHOD", "GET")] = "".
Proof.
  split.
  - exact (proj1 (filename_fields_need_keys [("PATH_INFO", "/a")]) eq_refl).
  - exact (proj1 (proj2 (filename_fields_need_keys [("REQUEST_METHOD", "GET")]))
             "GET" eq_refl eq_refl).
Defined.

(** The requests for /a/b and for /a.b *)
Lemma filename_path_collision_witness :
  "/a/b" <> "/a.b"
  /\ filename_path [("PATH_INFO", "/a/b")] = Ret "a.b"
  /\ filename_path [("PATH_INFO", "/a.b")] = Ret "a.b".
Proof.
  apply (filename_path_collision [("PATH_INFO", "/a/b")] [("PATH_INFO", "/a.b")]
           "a" "b"); (discriminate || reflexivity).
Defined.

(** CR LF before a letter is a match, one LF is none. *)
Lemma paragraph_re_matches_runs_witness :
  rmatch _paragraph_re (String CR (String LF "x")) Some = Some "x"
  /\ rmatch _paragraph_re (String LF "x") Some = None.
Proof.
  split.
  - apply (proj1 paragraph_re_matches_runs (String CR (String LF "")) "x");
      [reflexivity | simpl; lia | reflexivity].
  - exact (proj1 (proj2 paragraph_re_matches_runs) LF "x" eq_refl).
Defined.

(** A title, an empty line and a body. *)
Lemma paragraph_split_witness :
  re_split _paragraph_re ("Title" ++ (nl ++ nl) ++ "body") = ["Title"; "body"]
  /\ re_split _paragraph_re ("one" ++ nl ++ "two") = ["one" ++ nl ++ "two"].
Proof.
  split.
  - rewrite (proj2 paragraph_split "Title" (nl ++ nl) "body");
      [reflexivity | reflexivity | reflexivity | reflexivity
       | simpl; lia | reflexivity].
  - exact (proj1 paragraph_split ("one" ++ nl ++ "two") eq_refl).
Defined.

Lemma helper_page_witness :
  Helper_call (Some ("Title" ++ (nl ++ nl) ++ "body"))
  = Ret (help_page "Title" "body")
  /\ Helper_call (Some ("one" ++ nl ++ "two"))
     = Ret (help_page "Help" ("one" ++ nl ++ "two")).
Proof.
  split.
  - rewrite (proj2 helper_page "Title" (nl ++ nl) "body");
      [reflexivity | reflexivity | reflexivity | reflexivity
       | simpl; lia | reflexivity].
  - exact (proj1 helper_page ("one" ++ nl ++ "two") eq_refl).
Defined.
